(** * The plugin supervisor of WuKongIM: [internal/plugin/server.go]

    A shallow embedding of the plugin server (registry queries, process
    launcher, directory watch loop, shutdown coordinator, construction) and
    the properties its design document states about it.

    Effects are modelled by a trace of observable actions threaded through a
    small state monad; everything the operating system, the clock or a plugin
    decides is an oracle of the history so far. *)

From Stdlib Require Import List String Ascii Bool ZArith Lia.
Import ListNotations.
Open Scope string_scope.
Open Scope list_scope.

Set Implicit Arguments.

(** ** Data model *)

(** Go's [error] values; a nilable error is an [option error]. *)
Inductive error : Type :=
| ErrNotExist
| ErrPermission
| ErrDot
| ErrOther (msg : string).

Definition os_IsNotExist (err : option error) : bool :=
  match err with
  | Some ErrNotExist => true
  | _ => false
  end.

(** [errors.Is(err, exec.ErrDot)] *)
Definition is_ErrDot (err : option error) : bool :=
  match err with
  | Some ErrDot => true
  | _ => false
  end.

(** Modelled from the spec: [types.PluginStatus] is declared outside
    [server.go]; the design gives the states Connecting, Normal, Stopped and
    the sink Error. *)
Inductive PluginStatus : Type :=
| PluginStatusConnecting
| PluginStatusNormal
| PluginStatusStopped
| PluginStatusError.

Definition PluginStatus_eqb (a b : PluginStatus) : bool :=
  match a, b with
  | PluginStatusConnecting, PluginStatusConnecting
  | PluginStatusNormal, PluginStatusNormal
  | PluginStatusStopped, PluginStatusStopped
  | PluginStatusError, PluginStatusError => true
  | _, _ => false
  end.

Definition PluginMethod := string.

(** Modelled from the spec: the [Plugin] struct lives outside [server.go];
    an instance has an identifier, the file it was launched from, a status
    and the set of method names it declared at handshake.  Its connection is
    represented by the outcome oracle of [Stop] below. *)
Record Plugin : Type := mkPlugin {
  plugin_no : string;
  plugin_name : string;
  plugin_status : PluginStatus;
  plugin_methods : list PluginMethod
}.

Definition Status (p : Plugin) : PluginStatus := plugin_status p.

(** Modelled from the spec: [hasMethod] is declared outside [server.go]; it
    tells whether [m] is in the instance's capability set. *)
Definition hasMethod (p : Plugin) (m : PluginMethod) : bool :=
  existsb (String.eqb m) (plugin_methods p).

(** Modelled from the spec: the registry ([pluginManager]) is declared
    outside [server.go]: an in-memory table of the tracked instances. *)
Record pluginManager : Type := mkPluginManager {
  plugins : list Plugin
}.

(** Modelled from the spec: [all] returns every tracked instance regardless
    of status. *)
Definition all (pm : pluginManager) : list Plugin := plugins pm.

(** Modelled from the spec: [getByName] returns the registry entries whose
    file name matches; it may be empty. *)
Definition getByName (pm : pluginManager) (name : string) : list Plugin :=
  filter (fun p => String.eqb (plugin_name p) name) (plugins pm).

(** Modelled from the spec: [get] returns the instance registered under an
    identifier, if any. *)
Definition get (pm : pluginManager) (no : string) : option Plugin :=
  find (fun p => String.eqb (plugin_no p) no) (plugins pm).

Record Options : Type := mkOptions {
  Dir : string
}.

Record Server : Type := mkServer {
  rpcServer : string;
  pluginManager_of : pluginManager;
  opts : Options;
  sandboxDir : string
}.

(** ** Capability query: [Server.Plugins] *)

(** The inner [for _, m := range methods] with its [append] and [break]. *)
Fixpoint Plugins_methods_loop (p : Plugin) (methods : list PluginMethod)
    (results : list Plugin) : list Plugin :=
  match methods with
  | [] => results
  | m :: rest =>
      if hasMethod p m then results ++ [p]
      else Plugins_methods_loop p rest results
  end.

Definition Plugins (s : Server) (methods : list PluginMethod) : list Plugin :=
  match methods with
  | [] =>
      fold_left
        (fun results p =>
           if negb (PluginStatus_eqb (Status p) PluginStatusNormal)
           then results
           else results ++ [p])
        (all (pluginManager_of s)) []
  | _ :: _ =>
      fold_left
        (fun results p =>
           if negb (PluginStatus_eqb (Status p) PluginStatusNormal)
           then results
           else Plugins_methods_loop p methods results)
        (all (pluginManager_of s)) []
  end.

(** [Server.Plugin] *)
Definition Plugin_by_no (s : Server) (no : string) : option Plugin :=
  match get (pluginManager_of s) no with
  | None => None
  | Some pg => Some pg
  end.

(** The capability query as the design document words it: the Normal
    instances whose capability set meets the requested methods, every Normal
    instance when no method is requested. *)
Definition intersects (p : Plugin) (methods : list PluginMethod) : bool :=
  existsb (fun m => existsb (String.eqb m) (plugin_methods p)) methods.

Definition visible (methods : list PluginMethod) (p : Plugin) : bool :=
  PluginStatus_eqb (plugin_status p) PluginStatusNormal &&
  match methods with
  | [] => true
  | _ :: _ => intersects p methods
  end.

Definition listByCapability (pm : pluginManager)
    (methods : list PluginMethod) : list Plugin :=
  filter (visible methods) (all pm).

(** Every method declared by some tracked instance. *)
Definition allKnownMethods (pm : pluginManager) : list PluginMethod :=
  flat_map plugin_methods (all pm).

Definition set_equal (A : Type) (l1 l2 : list A) : Prop :=
  forall x, In x l1 <-> In x l2.

(** ** Paths *)

Definition slash : ascii := "/"%char.

Definition is_slash (c : ascii) : bool := Ascii.eqb c slash.

(** Drop the leading slashes of a reversed path: the trailing slashes of the
    path itself. *)
Fixpoint strip_slashes (l : list ascii) : list ascii :=
  match l with
  | [] => []
  | c :: r => if is_slash c then strip_slashes r else l
  end.

(** The characters before the first slash of a reversed path: the last
    element of the path itself, reversed. *)
Fixpoint until_slash (l : list ascii) : list ascii :=
  match l with
  | [] => []
  | c :: r => if is_slash c then [] else c :: until_slash r
  end.

(** Go's [path.Base] (and [filepath.Base] on Unix): strip trailing slashes,
    keep what follows the last slash; the empty path gives ".", a path of
    slashes only gives "/". *)
Definition path_Base (p : string) : string :=
  if String.eqb p "" then "."
  else
    let stripped := strip_slashes (rev (list_ascii_of_string p)) in
    let elem := string_of_list_ascii (rev (until_slash stripped)) in
    if String.eqb elem "" then "/" else elem.

(** The elements of a slash-separated path. *)
Fixpoint components_aux (l : list ascii) (cur : list ascii) : list string :=
  match l with
  | [] => [string_of_list_ascii (rev cur)]
  | c :: r =>
      if is_slash c then string_of_list_ascii (rev cur) :: components_aux r []
      else components_aux r (c :: cur)
  end.

Definition components (p : string) : list string :=
  components_aux (list_ascii_of_string p) [].

Definition is_absolute (p : string) : bool :=
  match p with
  | String c _ => is_slash c
  | EmptyString => false
  end.

Definition is_parent_relative (p : string) : bool :=
  existsb (String.eqb "..") (components p).

(** A file name as a directory listing gives it: one path element, neither
    empty nor one of the two dot entries. *)
Definition is_filename (name : string) : bool :=
  negb (existsb is_slash (list_ascii_of_string name)) &&
  negb (String.eqb name "") &&
  negb (String.eqb name ".") &&
  negb (String.eqb name "..").

(** ** Processes, contexts, file-system notifications *)

Inductive stream : Type := os_Stdout | os_Stderr.

(** [exec.Cmd], the fields the server touches. *)
Record Cmd : Type := mkCmd {
  Path : string;
  Args : list string;
  cmd_Dir : string;
  Stdout : option stream;
  Stderr : option stream;
  Err : option error
}.

(** [context.Context] with a deadline, in nanoseconds of the clock. *)
Record Context : Type := mkContext {
  deadline : Z
}.

Definition time_Second : Z := 1000000000.

Record DirEntry : Type := mkDirEntry {
  Name : string;
  IsDir : bool
}.

Record FileInfo : Type := mkFileInfo {
  fi_IsDir : bool
}.

(** [fsnotify.Op] is a bit mask. *)
Definition fsnotify_Create : Z := 1.
Definition fsnotify_Write : Z := 2.
Definition fsnotify_Remove : Z := 4.
Definition fsnotify_Rename : Z := 8.
Definition fsnotify_Chmod : Z := 16.

Record Event : Type := mkEvent {
  ev_Name : string;
  Op : Z
}.

Definition Has (e : Event) (op : Z) : bool := Z.eqb (Z.land (Op e) op) op.

(** ** Observable actions *)

Inductive level : Type := Info | Error.

Inductive field : Type :=
| zap_Error (err : error)
| zap_String (key val : string).

Inductive action : Type :=
| Log (lvl : level) (msg : string) (fields : list field)
| StdLogRemoving (socketPath : string) (err : error)
| CmdStart (c : Cmd) (r : option error)
| CmdWait (c : Cmd)
| WithTimeout (ctx : Context)
| Cancel (ctx : Context)
| PluginStop (p : Plugin) (ctx : Context) (r : option error)
| GoWatchPlugins
| WatcherAdd (dir : string)
| WatcherClose
| Remove (path : string) (r : option error)
| MkdirAll (path : string) (perm : Z) (r : option error)
| Chmod (path : string) (mode : Z) (r : option error)
| RpcStart (r : option error)
| RpcRoutes
| RpcStop.

Definition trace := list action.

(** What the environment answers, given the history so far. *)
Record Env : Type := mkEnv {
  exec_LookPath : trace -> string -> string * option error;
  proc_start : trace -> Cmd -> option error;
  plugin_stop : trace -> Plugin -> Context -> option error;
  time_Now : trace -> Z;
  os_ReadDir : trace -> string -> list DirEntry * option error;
  fsnotify_NewWatcher : trace -> option error;
  os_UserHomeDir : trace -> string * option error;
  os_Remove : trace -> string -> option error;
  os_MkdirAll : trace -> string -> Z -> option error;
  os_Stat : trace -> string -> option FileInfo * option error;
  os_Chmod : trace -> string -> Z -> option error;
  rpc_Start : trace -> option error
}.

(** ** The effect monad: a computation extends the trace *)

Definition M (A : Type) : Type := trace -> A * trace.

Definition ret (A : Type) (a : A) : M A := fun t => (a, t).

Definition bind (A B : Type) (m : M A) (k : A -> M B) : M B :=
  fun t => let (a, t') := m t in k a t'.

Definition emit (a : action) : M unit := fun t => (tt, t ++ [a]).

(** Ask the environment, showing it the history. *)
Definition ask (A : Type) (q : trace -> A) : M A := fun t => (q t, t).

Declare Scope go_scope.
Delimit Scope go_scope with go.
Notation "x <- c ;; k" := (bind c (fun x => k))
  (at level 61, c at next level, right associativity) : go_scope.
Notation "c ;;; k" := (bind c (fun _ => k))
  (at level 61, right associativity) : go_scope.
Open Scope go_scope.

(** A Go function that may panic. *)
Inductive outcome (A : Type) : Type :=
| Returns (a : A)
| Panics (err : error).
Arguments Panics {A} err.

(** ** The server's operations *)

Section ServerOps.

Variable env : Env.

(** [path.Join] and [path.Dir] of Go's library; only the construction of
    the socket and sandbox paths uses them. *)
Variable path_Join : list string -> string.
Variable path_Dir : string -> string.

Definition log (lvl : level) (msg : string) (fields : list field) : M unit :=
  emit (Log lvl msg fields).

(** [exec.Command]: a name that is not a bare file name is taken as it is;
    a bare name is looked up in PATH. *)
Definition exec_Command (name : string) : M Cmd :=
  let cmd := mkCmd name [name] "" None None None in
  if String.eqb (path_Base name) name then
    found <- ask (fun t => exec_LookPath env t name) ;;
    let (lp, err) := found in
    ret (mkCmd (if String.eqb lp "" then name else lp)
               [name] "" None None err)
  else ret cmd.

(** [cmd.Start]: a command that carries an error fails with it, otherwise
    the operating system decides; the call does not wait for the process. *)
Definition Cmd_Start (c : Cmd) : M (option error) :=
  r <- ask (fun t => match Err c with
                     | Some e => Some e
                     | None => proc_start env t c
                     end) ;;
  emit (CmdStart c r) ;;;
  ret r.

Definition startPluginApp (s : Server) (name : string) : M (option error) :=
  cmd <- exec_Command ("./" ++ name)%string ;;
  let cmd := mkCmd (Path cmd) (Args cmd) (cmd_Dir cmd)
                   (Some os_Stdout) (Stderr cmd) (Err cmd) in
  let cmd := mkCmd (Path cmd) (Args cmd) (cmd_Dir cmd)
                   (Stdout cmd) (Some os_Stderr) (Err cmd) in
  let cmd := mkCmd (Path cmd) (Args cmd) (Dir (opts s))
                   (Stdout cmd) (Stderr cmd) (Err cmd) in
  let cmd := if is_ErrDot (Err cmd)
             then mkCmd (Path cmd) (Args cmd) (cmd_Dir cmd)
                        (Stdout cmd) (Stderr cmd) None
             else cmd in
  err <- Cmd_Start cmd ;;
  match err with
  | Some e =>
      log Error "starting plugin process failed"
          [zap_Error e; zap_String "plugin" name] ;;;
      ret (Some e)
  | None => ret None
  end.

(** [context.WithTimeout(context.Background(), d)] *)
Definition context_WithTimeout (d : Z) : M Context :=
  now <- ask (time_Now env) ;;
  let ctx := mkContext (now + d) in
  emit (WithTimeout ctx) ;;;
  ret ctx.

(** [p.Stop(ctx)]: the graceful-stop request over the instance's connection;
    its body is outside [server.go], its result is the environment's. *)
Definition Plugin_Stop (p : Plugin) (ctx : Context) : M (option error) :=
  r <- ask (fun t => plugin_stop env t p ctx) ;;
  emit (PluginStop p ctx r) ;;;
  ret r.

(** [for _, p := range plugins { _ = p.Stop(timeoutCtx) }] *)
Fixpoint stop_each (ps : list Plugin) (ctx : Context) : M unit :=
  match ps with
  | [] => ret tt
  | p :: rest => Plugin_Stop p ctx ;;; stop_each rest ctx
  end.

Definition stopPluginApp (s : Server) (name : string) : M (option error) :=
  let plugins := getByName (pluginManager_of s) name in
  timeoutCtx <- context_WithTimeout (3 * time_Second) ;;
  stop_each plugins timeoutCtx ;;;
  emit (Cancel timeoutCtx) ;;;
  ret None.

Definition restartPlugin (s : Server) (name : string) : M (option error) :=
  err <- stopPluginApp s name ;;
  match err with
  | Some e => ret (Some e)
  | None =>
      err <- startPluginApp s name ;;
      match err with
      | Some e => ret (Some e)
      | None => ret None
      end
  end.

(** The body of the scan loop of [startPlugins]. *)
Fixpoint startPlugins_loop (s : Server) (files : list DirEntry) : M unit :=
  match files with
  | [] => ret tt
  | file :: rest =>
      if IsDir file then startPlugins_loop s rest
      else
        log Info "Plugin start" [zap_String "plugin" (Name file)] ;;;
        err <- startPluginApp s (Name file) ;;
        match err with
        | Some e =>
            log Error "start plugin error" [zap_Error e] ;;;
            startPlugins_loop s rest
        | None => startPlugins_loop s rest
        end
  end.

Definition startPlugins (s : Server) : M (option error) :=
  let pluginDir := Dir (opts s) in
  listing <- ask (fun t => os_ReadDir env t pluginDir) ;;
  let (files, err) := listing in
  match err with
  | Some e => ret (Some e)
  | None =>
      startPlugins_loop s files ;;;
      emit GoWatchPlugins ;;;
      ret None
  end.

Fixpoint stopPlugins_loop (s : Server) (files : list DirEntry) : M unit :=
  match files with
  | [] => ret tt
  | file :: rest =>
      if IsDir file then stopPlugins_loop s rest
      else
        err <- stopPluginApp s (Name file) ;;
        match err with
        | Some e =>
            log Error "stop plugin error" [zap_Error e] ;;;
            stopPlugins_loop s rest
        | None => stopPlugins_loop s rest
        end
  end.

Definition stopPlugins (s : Server) : M (option error) :=
  let pluginDir := Dir (opts s) in
  listing <- ask (fun t => os_ReadDir env t pluginDir) ;;
  let (files, err) := listing in
  match err with
  | Some e => ret (Some e)
  | None => stopPlugins_loop s files ;;; ret None
  end.

(** What one iteration of the [select] of the watch loop receives.  An
    event comes with what [os.Stat] then answers for its path and with the
    registry as it stands when the event is handled (handshakes of other
    tasks change it between two events). *)
Inductive delivery : Type :=
| RecvEvent (event : Event) (stat : option FileInfo * option error)
            (registry : pluginManager)
| EventsClosed
| RecvError (err : error)
| ErrorsClosed.

Definition with_registry (s : Server) (pm : pluginManager) : Server :=
  mkServer (rpcServer s) pm (opts s) (sandboxDir s).

(** The three-way branch on the kind of the event. *)
Definition watch_dispatch (s : Server) (event : Event) : M unit :=
  let pluginName := path_Base (ev_Name event) in
  if Has event fsnotify_Create then
    log Info "Plugin file created" [zap_String "plugin" pluginName] ;;;
    err <- startPluginApp s pluginName ;;
    match err with
    | Some e => log Error "start plugin error" [zap_Error e]
    | None => ret tt
    end
  else if Has event fsnotify_Write then
    log Info "Plugin file changed" [zap_String "plugin" pluginName] ;;;
    err <- restartPlugin s pluginName ;;
    match err with
    | Some e => log Error "restart plugin error" [zap_Error e]
    | None => ret tt
    end
  else if Has event fsnotify_Remove || Has event fsnotify_Rename then
    log Info "Plugin file removed" [zap_String "plugin" pluginName] ;;;
    err <- stopPluginApp s pluginName ;;
    match err with
    | Some e => log Error "stop plugin error" [zap_Error e]
    | None => ret tt
    end
  else ret tt.

(** The body of [case event, ok := <-watcher.Events] when [ok]. *)
Definition watch_event (s : Server) (event : Event)
    (stat : option FileInfo * option error) : M unit :=
  let (fileInfo, err) := stat in
  match err with
  | Some e =>
      if negb (os_IsNotExist (Some e)) then
        log Error "stat file error" [zap_Error e]
      else
        match fileInfo with
        | Some fi => if fi_IsDir fi then ret tt else watch_dispatch s event
        | None => watch_dispatch s event
        end
  | None =>
      match fileInfo with
      | Some fi => if fi_IsDir fi then ret tt else watch_dispatch s event
      | None => watch_dispatch s event
      end
  end.

(** The [for { select { ... } }] of [watchPlugins] over the deliveries seen
    so far: [Some r] when the loop has returned [r], [None] when it is still
    waiting in [select]. *)
Fixpoint watch_loop (s : Server) (ds : list delivery)
    : M (option (option error)) :=
  match ds with
  | [] => ret None
  | d :: rest =>
      match d with
      | EventsClosed => ret (Some None)
      | ErrorsClosed => ret (Some None)
      | RecvError e =>
          log Error "watcher error" [zap_Error e] ;;;
          watch_loop s rest
      | RecvEvent event stat pm =>
          watch_event (with_registry s pm) event stat ;;;
          watch_loop s rest
      end
  end.

Definition watchPlugins (s : Server) (ds : list delivery)
    : M (option (option error)) :=
  werr <- ask (fsnotify_NewWatcher env) ;;
  match werr with
  | Some e => ret (Some (Some e))
  | None =>
      emit (WatcherAdd (Dir (opts s))) ;;;
      r <- watch_loop s ds ;;
      match r with
      | Some v => emit WatcherClose ;;; ret (Some v)
      | None => ret None
      end
  end.

(** System calls that change the file system leave an action. *)
Definition sys_Remove (path : string) : M (option error) :=
  r <- ask (fun t => os_Remove env t path) ;;
  emit (Remove path r) ;;;
  ret r.

Definition sys_MkdirAll (path : string) (perm : Z) : M (option error) :=
  r <- ask (fun t => os_MkdirAll env t path perm) ;;
  emit (MkdirAll path perm r) ;;;
  ret r.

Definition sys_Chmod (path : string) (mode : Z) : M (option error) :=
  r <- ask (fun t => os_Chmod env t path mode) ;;
  emit (Chmod path mode r) ;;;
  ret r.

Definition os_ModePerm : Z := 511.

Definition getUnixSocket : M (outcome (string * option error)) :=
  home <- ask (os_UserHomeDir env) ;;
  let (homeDir, err) := home in
  match err with
  | Some e => ret (Returns ("", Some e))
  | None =>
      let socketPath :=
        path_Join [homeDir; ".wukong"; "run"; "wukongim.sock"] in
      let rest :=
        let socketDir := path_Dir socketPath in
        err <- sys_MkdirAll socketDir 511 ;;
        match err with
        | Some e => ret (Returns ("", Some e))
        | None => ret (Returns (("unix://" ++ socketPath)%string, None))
        end in
      err <- sys_Remove socketPath ;;
      match err with
      | Some e =>
          if negb (os_IsNotExist (Some e)) then
            emit (StdLogRemoving socketPath e) ;;;
            ret (Panics e)
          else rest
      | None => rest
      end
  end.

(** [if _, err := os.Stat(dir); os.IsNotExist(err) { os.MkdirAll(dir) }]:
    [None] when the step passed, [Some e] when it panics with [e]. *)
Definition ensure_dir (dir : string) : M (option error) :=
  st <- ask (fun t => os_Stat env t dir) ;;
  if os_IsNotExist (snd st) then sys_MkdirAll dir os_ModePerm
  else ret None.

(** [NewServer]: [Returns None] is the nil server. *)
Definition NewServer (o : Options) : M (outcome (option Server)) :=
  sock <- getUnixSocket ;;
  match sock with
  | Panics e => ret (Panics e)
  | Returns (_, Some e) => ret (Panics e)
  | Returns (addr, None) =>
      let rpcServer := addr in
      err <- ensure_dir (Dir o) ;;
      match err with
      | Some e => ret (Panics e)
      | None =>
          let sandboxDir := path_Join [Dir o; "plugindata"] in
          err <- ensure_dir sandboxDir ;;
          match err with
          | Some e => ret (Panics e)
          | None =>
              err <- sys_Chmod (Dir o) 365 ;;
              match err with
              | Some _ => ret (Returns None)
              | None =>
                  ret (Returns
                         (Some (mkServer rpcServer (mkPluginManager [])
                                         o sandboxDir)))
              end
          end
      end
  end.

Definition Start (s : Server) : M (option error) :=
  err <- ask (rpc_Start env) ;;
  emit (RpcStart err) ;;;
  match err with
  | Some e => ret (Some e)
  | None =>
      emit RpcRoutes ;;;
      err <- startPlugins s ;;
      match err with
      | Some e =>
          log Error "start plugins error" [zap_Error e] ;;;
          ret (Some e)
      | None => ret None
      end
  end.

Definition Stop (s : Server) : M unit :=
  emit RpcStop ;;;
  stopPlugins s ;;;
  ret tt.

End ServerOps.

(** ** Reading a trace *)

(** The commands started, in order. *)
Fixpoint started (t : trace) : list Cmd :=
  match t with
  | [] => []
  | CmdStart c _ :: r => c :: started r
  | _ :: r => started r
  end.

(** The file names launched: a launch of [name] starts "./name". *)
Definition launch_path (name : string) : string := ("./" ++ name)%string.

Definition launched_paths (t : trace) : list string := map Path (started t).

(** The errors of the starts that failed, in order. *)
Fixpoint failed_starts (t : trace) : list error :=
  match t with
  | [] => []
  | CmdStart _ (Some e) :: r => e :: failed_starts r
  | _ :: r => failed_starts r
  end.

(** The errors logged under a message, in order. *)
Fixpoint logged_errors (msg : string) (t : trace) : list error :=
  match t with
  | [] => []
  | Log Error m [zap_Error e] :: r =>
      if String.eqb m msg then e :: logged_errors msg r
      else logged_errors msg r
  | _ :: r => logged_errors msg r
  end.

(** The instances asked to stop, with the context each request carried. *)
Fixpoint stopped (t : trace) : list (Plugin * Context) :=
  match t with
  | [] => []
  | PluginStop p ctx _ :: r => (p, ctx) :: stopped r
  | _ :: r => stopped r
  end.

(** The deadlines created. *)
Fixpoint timeouts (t : trace) : list Context :=
  match t with
  | [] => []
  | WithTimeout ctx :: r => ctx :: timeouts r
  | _ :: r => timeouts r
  end.

(** The processes waited for. *)
Fixpoint waited (t : trace) : list Cmd :=
  match t with
  | [] => []
  | CmdWait c :: r => c :: waited r
  | _ :: r => waited r
  end.

(** Whether the watch task has been spawned. *)
Definition watch_spawned (t : trace) : bool :=
  existsb (fun a => match a with GoWatchPlugins => true | _ => false end) t.

(** ** Sample data *)

(** A registry on which the empty query and the query for every known
    method differ: the second instance is Normal and declares no method. *)
Definition echo_1 : Plugin :=
  mkPlugin "echo-1" "echo-plugin" PluginStatusNormal ["echo"].

Definition idle_1 : Plugin :=
  mkPlugin "idle-1" "idle-plugin" PluginStatusNormal [].

Definition server_with (ps : list Plugin) : Server :=
  mkServer "unix:///run/wukongim.sock" (mkPluginManager ps)
           (mkOptions "/plugins") "/plugins/plugindata".

Definition echo_2 : Plugin :=
  mkPlugin "echo-2" "echo-plugin" PluginStatusNormal ["echo"; "send"].

(** An environment in which every call succeeds and the clock stands at
    zero. *)
Definition calm : Env :=
  mkEnv (fun _ name => (name, None))
        (fun _ _ => None)
        (fun _ _ _ => None)
        (fun _ => 0%Z)
        (fun _ _ => ([], None))
        (fun _ => None)
        (fun _ => ("/home/wk", None))
        (fun _ _ => None)
        (fun _ _ _ => None)
        (fun _ _ => (Some (mkFileInfo true), None))
        (fun _ _ _ => None)
        (fun _ => None).

(** ** What a launch and a stop are expected to be *)

(** The command a launch of [name] starts: the path is the name under the
    current directory, which is the plugin directory; the streams are the
    server's own. *)
Definition launch_cmd (s : Server) (name : string) : Cmd :=
  mkCmd (launch_path name) [launch_path name] (Dir (opts s))
        (Some os_Stdout) (Some os_Stderr) None.

(** The one context of an invocation of the stop procedure that begins
    with history [t]. *)
Definition stop_ctx (env : Env) (t : trace) : Context :=
  mkContext (time_Now env t + 3 * time_Second).

(** The stop requests the matching entries are to receive. *)
Definition stop_requests (s : Server) (name : string) (ctx : Context)
    : list (Plugin * Context) :=
  map (fun p => (p, ctx)) (getByName (pluginManager_of s) name).

(** An action of the stop loop under [ctx]. *)
Definition is_stop_under (ctx : Context) (a : action) : Prop :=
  match a with
  | PluginStop _ c _ => c = ctx
  | _ => False
  end.

(** The two guards an event passes before it is classified: [os.Stat]
    answered without error or with not-exist, and did not find a
    directory. *)
Definition stat_lets_through (stat : option FileInfo * option error) : bool :=
  match snd stat with
  | None => true
  | Some e => os_IsNotExist (Some e)
  end &&
  match fst stat with
  | Some fi => negb (fi_IsDir fi)
  | None => true
  end.

(** A delivery that tells the loop the watcher's stream is closed: the
    receive on one of its two channels reports the channel closed (the
    watcher closes both when it is closed). *)
Definition is_closure (d : delivery) : bool :=
  match d with
  | EventsClosed | ErrorsClosed => true
  | _ => false
  end.

(** The deliveries that precede the first closure. *)
Fixpoint before_closure (ds : list delivery) : list delivery :=
  match ds with
  | [] => []
  | d :: rest => if is_closure d then [] else d :: before_closure rest
  end.

(** The errors the watcher delivered. *)
Fixpoint watcher_errors (ds : list delivery) : list error :=
  match ds with
  | [] => []
  | RecvError e :: rest => e :: watcher_errors rest
  | _ :: rest => watcher_errors rest
  end.

(** The names of the regular files of a listing. *)
Definition regular_files (files : list DirEntry) : list string :=
  map Name (filter (fun f => negb (IsDir f)) files).

(** A plugin directory with two files and the sandbox directory; the second
    file cannot be executed. *)
Definition boot_listing : list DirEntry :=
  [mkDirEntry "bad-plugin" false;
   mkDirEntry "plugindata" true;
   mkDirEntry "echo-plugin" false].

Definition boot_env : Env :=
  mkEnv (fun _ name => (name, None))
        (fun _ c => if String.eqb (Path c) "./bad-plugin"
                    then Some ErrPermission else None)
        (fun _ _ _ => Some (ErrOther "context deadline exceeded"))
        (fun _ => 1000%Z)
        (fun _ _ => (boot_listing, None))
        (fun _ => None)
        (fun _ => ("/home/wk", None))
        (fun _ _ => Some ErrNotExist)
        (fun _ _ _ => None)
        (fun _ _ => (Some (mkFileInfo true), None))
        (fun _ _ _ => None)
        (fun _ => None).

(** A remove notification for the file of [echo_1], and what [os.Stat] may
    answer for it. *)
Definition echo_removed : Event :=
  mkEvent "/plugins/echo-plugin" fsnotify_Remove.

Definition stat_denied : option FileInfo * option error :=
  (None, Some ErrPermission).

Definition stat_gone : option FileInfo * option error :=
  (None, Some ErrNotExist).

(** A stretch of trace that logs nothing under the message the loop keeps
    for the watcher's own errors. *)
Definition silent (d : trace) : Prop := logged_errors "watcher error" d = [].

(** ** Sample setup environments *)

(** Joining path elements that need no cleaning, and the directory of a
    path that has one: enough of [path.Join] and [path.Dir] to run the
    construction on the samples. *)
Definition join_slash (elems : list string) : string :=
  String.concat "/" elems.

Fixpoint drop_element (l : list ascii) : list ascii :=
  match l with
  | [] => []
  | c :: r => if is_slash c then r else drop_element r
  end.

Definition dir_of (p : string) : string :=
  string_of_list_ascii (rev (drop_element (rev (list_ascii_of_string p)))).

(** A setup environment: the plugin and sandbox directories are absent when
    [missing] says so, creating the directory [unwritable] fails, and the
    home directory, the removal of the socket file and the change of mode
    answer as given. *)
Definition setup_env (home_err remove_err : option error)
    (missing : string -> bool) (unwritable : string)
    (chmod_err : option error) : Env :=
  mkEnv (fun _ name => (name, None))
        (fun _ _ => None)
        (fun _ _ _ => None)
        (fun _ => 0%Z)
        (fun _ _ => ([], None))
        (fun _ => None)
        (fun _ => match home_err with
                  | Some e => ("", Some e)
                  | None => ("/home/wk", None)
                  end)
        (fun _ _ => remove_err)
        (fun _ path _ => if String.eqb path unwritable
                         then Some ErrPermission else None)
        (fun _ path => if missing path then (None, Some ErrNotExist)
                       else (Some (mkFileInfo true), None))
        (fun _ _ _ => chmod_err)
        (fun _ => None).

Definition plugin_opts : Options := mkOptions "/plugins".

Definition socket_path : string := "/home/wk/.wukong/run/wukongim.sock".

(** ** Further readers and samples *)

(** The deadlines released. *)
Fixpoint cancelled (t : trace) : list Context :=
  match t with
  | [] => []
  | Cancel ctx :: r => ctx :: cancelled r
  | _ :: r => cancelled r
  end.

(** The lines logged under a message at the error level, whatever their
    fields. *)
Fixpoint error_lines (msg : string) (t : trace) : list (list field) :=
  match t with
  | [] => []
  | Log Error m fs :: r =>
      if String.eqb m msg then fs :: error_lines msg r
      else error_lines msg r
  | _ :: r => error_lines msg r
  end.

(** How often the watcher was closed. *)
Fixpoint watcher_closes (t : trace) : nat :=
  match t with
  | [] => 0
  | WatcherClose :: r => S (watcher_closes r)
  | _ :: r => watcher_closes r
  end.

(** The events among the deliveries. *)
Fixpoint delivered_events (ds : list delivery) : list Event :=
  match ds with
  | [] => []
  | RecvEvent event _ _ :: rest => event :: delivered_events rest
  | _ :: rest => delivered_events rest
  end.

(** An event that can make the loop launch: it carries the create or the
    write bit. *)
Definition may_launch (event : Event) : bool :=
  Has event fsnotify_Create || Has event fsnotify_Write.

(** The path the watcher reports for an entry of a directory. *)
Definition entry_path (dir name : string) : string :=
  (dir ++ "/" ++ name)%string.

Definition echo_3 : Plugin :=
  mkPlugin "echo-3" "echo-plugin" PluginStatusStopped ["echo"].

Definition echo_created : Event :=
  mkEvent "/plugins/echo-plugin" (Z.lor fsnotify_Create fsnotify_Remove).

Definition echo_written : Event :=
  mkEvent "/plugins/echo-plugin" fsnotify_Write.

Definition echo_chmod : Event :=
  mkEvent "/plugins/echo-plugin" fsnotify_Chmod.

Definition stat_file : option FileInfo * option error :=
  (Some (mkFileInfo false), None).

Definition stat_dir : option FileInfo * option error :=
  (Some (mkFileInfo true), None).

(** An environment in which the plugin directory cannot be listed and no
    watcher can be created. *)
Definition blind_env : Env :=
  mkEnv (fun _ name => (name, None))
        (fun _ _ => None)
        (fun _ _ _ => None)
        (fun _ => 0%Z)
        (fun _ _ => ([], Some ErrPermission))
        (fun _ => Some (ErrOther "too many open files"))
        (fun _ => ("/home/wk", None))
        (fun _ _ => None)
        (fun _ _ _ => None)
        (fun _ _ => (None, Some ErrPermission))
        (fun _ _ _ => None)
        (fun _ => None).

(** A stretch of trace that releases the deadlines it creates, in order,
    and neither spawns the watch task, waits for a process, closes the
    watcher nor stops the channel endpoint. *)
Definition contained (d : trace) : Prop :=
  timeouts d = cancelled d /\
  watch_spawned d = false /\
  waited d = [] /\
  watcher_closes d = 0 /\
  ~ In RpcStop d.

(** The changes of mode attempted. *)
Fixpoint chmods (t : trace) : list (string * Z * option error) :=
  match t with
  | [] => []
  | Chmod path mode r :: rest => (path, mode, r) :: chmods rest
  | _ :: rest => chmods rest
  end.

(** The path of the socket under a home directory. *)
Definition socket_under (path_Join : list string -> string) (home : string)
    : string :=
  path_Join [home; ".wukong"; "run"; "wukongim.sock"].

(** ** What the scans and the loop are expected to leave *)

(** The stretch of trace that a scan of stop invocations leaves for a list
    of file names, begun with history [t]: for each name in turn a deadline
    three seconds after the clock of that moment, the stop requests of the
    entries of that name under that deadline and nothing else, and the
    release of that deadline. *)
Fixpoint stop_rounds (env : Env) (s : Server) (names : list string)
    (t : trace) (d : trace) : Prop :=
  match names with
  | [] => d = []
  | name :: rest =>
      exists stops d',
        d = WithTimeout (stop_ctx env t) :: stops
            ++ Cancel (stop_ctx env t) :: d' /\
        Forall (is_stop_under (stop_ctx env t)) stops /\
        stopped stops = stop_requests s name (stop_ctx env t) /\
        stop_rounds env s rest
          (t ++ WithTimeout (stop_ctx env t) :: stops
             ++ [Cancel (stop_ctx env t)]) d'
  end.





(** * Properties *)

(** ** The capability query *)

Lemma PluginStatus_eqb_eq (a b : PluginStatus) :
  PluginStatus_eqb a b = true <-> a = b.
Proof. destruct a, b; simpl; split; intro H; congruence. Qed.

(** The inner loop appends the instance once when some requested method is
    declared, and leaves the results alone otherwise. *)
Lemma Plugins_methods_loop_spec (p : Plugin) (methods : list PluginMethod)
    (results : list Plugin) :
  Plugins_methods_loop p methods results =
  if intersects p methods then results ++ [p] else results.
Proof.
  induction methods as [|m rest IH]; simpl.
  - reflexivity.
  - unfold hasMethod at 1.
    destruct (existsb (String.eqb m) (plugin_methods p)); simpl.
    + reflexivity.
    + exact IH.
Qed.

Lemma fold_left_collect (A : Type) (keep : A -> bool) (l : list A) :
  forall acc,
    fold_left (fun results x => if keep x then results ++ [x] else results)
              l acc
    = acc ++ filter keep l.
Proof.
  induction l as [|x l IH]; intro acc; simpl.
  - now rewrite app_nil_r.
  - rewrite IH. destruct (keep x); simpl.
    + now rewrite <- app_assoc.
    + reflexivity.
Qed.

Lemma fold_left_ext_acc (A B : Type) (f g : B -> A -> B) (l : list A) :
  (forall b a, f b a = g b a) ->
  forall acc, fold_left f l acc = fold_left g l acc.
Proof.
  intro E. induction l as [|x l IH]; intro acc; simpl.
  - reflexivity.
  - rewrite E. apply IH.
Qed.

(** The code computes the query the design document words. *)
Lemma Plugins_refines (s : Server) (methods : list PluginMethod) :
  Plugins s methods = listByCapability (pluginManager_of s) methods.
Proof.
  unfold Plugins, listByCapability.
  destruct methods as [|m0 rest].
  - rewrite fold_left_ext_acc with
      (g := fun results x =>
              if visible [] x then results ++ [x] else results).
    + now rewrite fold_left_collect.
    + intros b a. unfold visible, Status.
      destruct (PluginStatus_eqb (plugin_status a) PluginStatusNormal);
        reflexivity.
  - rewrite fold_left_ext_acc with
      (g := fun results x =>
              if visible (m0 :: rest) x then results ++ [x] else results).
    + now rewrite fold_left_collect.
    + intros b a. unfold visible, Status.
      rewrite Plugins_methods_loop_spec.
      destruct (PluginStatus_eqb (plugin_status a) PluginStatusNormal);
        reflexivity.
Qed.

Lemma intersects_iff (p : Plugin) (methods : list PluginMethod) :
  intersects p methods = true <->
  exists m, In m methods /\ In m (plugin_methods p).
Proof.
  unfold intersects. rewrite existsb_exists. split.
  - intros [m [Hm Hex]]. exists m. split; [exact Hm|].
    apply existsb_exists in Hex. destruct Hex as [m' [Hin Heq]].
    apply String.eqb_eq in Heq. now subst.
  - intros [m [Hm Hin]]. exists m. split; [exact Hm|].
    apply existsb_exists. exists m. split; [exact Hin|].
    apply String.eqb_refl.
Qed.

Lemma visible_iff (methods : list PluginMethod) (p : Plugin) :
  visible methods p = true <->
  Status p = PluginStatusNormal /\
  (methods = [] \/ exists m, In m methods /\ In m (plugin_methods p)).
Proof.
  unfold visible, Status. rewrite andb_true_iff, PluginStatus_eqb_eq.
  destruct methods as [|m0 rest].
  - split; intros [H _]; split; auto.
  - rewrite intersects_iff. split; intros [H1 H2]; split; auto.
    destruct H2 as [H2|H2]; [discriminate|exact H2].
Qed.

(** C2: the capability query returns exactly the tracked instances that are
    Normal and declare one of the requested methods, every Normal instance
    when no method is requested, and never an instance that is not Normal.
    The result is the registry's listing filtered, so order and
    multiplicity are those of the listing. *)
Theorem Plugins_exactly_normal_and_capable
    (s : Server) (methods : list PluginMethod) :
  Plugins s methods = filter (visible methods) (all (pluginManager_of s)) /\
  (forall p,
      In p (Plugins s methods) <->
      In p (all (pluginManager_of s)) /\
      Status p = PluginStatusNormal /\
      (methods = [] \/ exists m, In m methods /\ In m (plugin_methods p))) /\
  Plugins s [] =
    filter (fun p => PluginStatus_eqb (Status p) PluginStatusNormal)
           (all (pluginManager_of s)) /\
  (forall p, Status p <> PluginStatusNormal -> ~ In p (Plugins s methods)).
Proof.
  repeat split.
  - apply Plugins_refines.
  - rewrite Plugins_refines in H. unfold listByCapability in H.
    apply filter_In in H. tauto.
  - rewrite Plugins_refines in H. unfold listByCapability in H.
    apply filter_In in H. destruct H as [_ H].
    apply visible_iff in H. tauto.
  - rewrite Plugins_refines in H. unfold listByCapability in H.
    apply filter_In in H. destruct H as [_ H].
    apply visible_iff in H. tauto.
  - intros [Hin Hv]. rewrite Plugins_refines. unfold listByCapability.
    apply filter_In. split; [exact Hin|]. now apply visible_iff.
  - rewrite Plugins_refines. unfold listByCapability.
    apply filter_ext. intro p. unfold visible, Status.
    now rewrite andb_true_r.
  - intros p Hst Hin. rewrite Plugins_refines in Hin.
    unfold listByCapability in Hin. apply filter_In in Hin.
    destruct Hin as [_ Hv]. apply visible_iff in Hv. tauto.
Qed.

Lemma In_Plugins_iff (s : Server) (methods : list PluginMethod) (p : Plugin) :
  In p (Plugins s methods) <->
  In p (all (pluginManager_of s)) /\ visible methods p = true.
Proof.
  rewrite Plugins_refines. unfold listByCapability. apply filter_In.
Qed.

(** C9 as stated fails: with every instance Normal, the empty query lists
    the instance that declares no method and the query for all known
    methods does not. *)
Lemma Plugins_all_methods_misses_methodless :
  let s := server_with [echo_1; idle_1] in
  (forall p, In p (all (pluginManager_of s)) ->
             Status p = PluginStatusNormal) /\
  Plugins s [] = [echo_1; idle_1] /\
  Plugins s (allKnownMethods (pluginManager_of s)) = [echo_1] /\
  ~ set_equal (Plugins s [])
              (Plugins s (allKnownMethods (pluginManager_of s))).
Proof.
  simpl. split; [|split; [|split]].
  - intros p [H|[H|[]]]; subst; reflexivity.
  - reflexivity.
  - reflexivity.
  - intro H. specialize (H idle_1). destruct H as [H _].
    assert (I : In idle_1 [echo_1]) by (apply H; right; left; reflexivity).
    destruct I as [I|[]]. discriminate I.
Qed.

(** C9, amended: when every tracked instance is Normal and declares at
    least one method, the query with no method and the query with every
    known method return the same set of instances (and the same list). *)
Theorem Plugins_empty_same_as_all_methods (s : Server) :
  (forall p, In p (all (pluginManager_of s)) ->
             Status p = PluginStatusNormal) ->
  (forall p, In p (all (pluginManager_of s)) -> plugin_methods p <> []) ->
  set_equal (Plugins s [])
            (Plugins s (allKnownMethods (pluginManager_of s))) /\
  Plugins s [] = Plugins s (allKnownMethods (pluginManager_of s)).
Proof.
  intros Hnormal Hdecl.
  assert (V : forall p, In p (all (pluginManager_of s)) ->
                        visible [] p =
                        visible (allKnownMethods (pluginManager_of s)) p).
  { intros p Hin.
    assert (V1 : visible [] p = true).
    { apply visible_iff. split; [now apply Hnormal | now left]. }
    assert (V2 : visible (allKnownMethods (pluginManager_of s)) p = true).
    { apply visible_iff. split; [now apply Hnormal|]. right.
      specialize (Hdecl p Hin).
      destruct (plugin_methods p) as [|m ms] eqn:E; [congruence|].
      exists m. split.
      - unfold allKnownMethods. apply in_flat_map. exists p.
        split; [exact Hin | rewrite E; now left].
      - now left. }
    now rewrite V1, V2. }
  assert (E : Plugins s [] =
              Plugins s (allKnownMethods (pluginManager_of s))).
  { rewrite !Plugins_refines. unfold listByCapability.
    apply filter_ext_in. exact V. }
  split; [|exact E].
  intro x. now rewrite E.
Qed.

Lemma Plugins_empty_same_as_all_methods_witness :
  set_equal (Plugins (server_with [echo_1; echo_2]) [])
            (Plugins (server_with [echo_1; echo_2])
                     (allKnownMethods
                        (pluginManager_of (server_with [echo_1; echo_2]))))
  /\ Plugins (server_with [echo_1; echo_2]) [] =
     Plugins (server_with [echo_1; echo_2])
             (allKnownMethods
                (pluginManager_of (server_with [echo_1; echo_2]))).
Proof.
  apply (@Plugins_empty_same_as_all_methods (server_with [echo_1; echo_2])).
  - intros p [H|[H|[]]]; subst; reflexivity.
  - intros p [H|[H|[]]]; subst; discriminate.
Defined.

Lemma NoDup_map_filter (A B : Type) (f : A -> B) (keep : A -> bool)
    (l : list A) :
  NoDup (map f l) -> NoDup (map f (filter keep l)).
Proof.
  induction l as [|x l IH]; simpl; intro H.
  - constructor.
  - inversion H as [|y ys Hnotin Hnd]; subst.
    destruct (keep x); simpl.
    + constructor; [|now apply IH].
      intro Hin. apply Hnotin.
      apply in_map_iff in Hin. destruct Hin as [z [Hz Hin]].
      apply filter_In in Hin. apply in_map_iff. exists z. tauto.
    + now apply IH.
Qed.

(** C10: the registry tracking each identifier once, each instance appears
    at most once in the result of the capability query, whatever the
    requested methods, also when several of them are declared by the
    instance (the inner loop stops at the first one). *)
Theorem Plugins_each_instance_once (s : Server) (methods : list PluginMethod) :
  NoDup (map plugin_no (all (pluginManager_of s))) ->
  NoDup (map plugin_no (Plugins s methods)) /\ NoDup (Plugins s methods).
Proof.
  intro H.
  assert (N : NoDup (map plugin_no (Plugins s methods))).
  { rewrite Plugins_refines. unfold listByCapability.
    now apply NoDup_map_filter. }
  split; [exact N|]. eapply NoDup_map_inv. exact N.
Qed.

Lemma Plugins_each_instance_once_witness :
  (NoDup (map plugin_no (Plugins (server_with [echo_2; echo_1])
                                 ["echo"; "send"])) /\
   NoDup (Plugins (server_with [echo_2; echo_1]) ["echo"; "send"])) /\
  Plugins (server_with [echo_2; echo_1]) ["echo"; "send"] = [echo_2; echo_1].
Proof.
  split; [|reflexivity].
  apply (@Plugins_each_instance_once (server_with [echo_2; echo_1])
                                     ["echo"; "send"]).
  simpl. constructor.
  - intros [H|[]]. discriminate H.
  - constructor; [intros []|constructor].
Defined.

(** ** Reading the trace of a sequence *)

Ltac reader_app l :=
  induction l as [|? ? ?IH]; simpl; intros;
  [ reflexivity
  | repeat match goal with
           | |- context [match ?v with _ => _ end] => destruct v; simpl
           end;
    rewrite ?IH; reflexivity ].

Lemma started_app (a b : trace) : started (a ++ b) = started a ++ started b.
Proof. reader_app a. Qed.

Lemma stopped_app (a b : trace) : stopped (a ++ b) = stopped a ++ stopped b.
Proof. reader_app a. Qed.

Lemma timeouts_app (a b : trace) :
  timeouts (a ++ b) = timeouts a ++ timeouts b.
Proof. reader_app a. Qed.

Lemma waited_app (a b : trace) : waited (a ++ b) = waited a ++ waited b.
Proof. reader_app a. Qed.

Lemma failed_starts_app (a b : trace) :
  failed_starts (a ++ b) = failed_starts a ++ failed_starts b.
Proof. reader_app a. Qed.

Lemma logged_errors_app (msg : string) (a b : trace) :
  logged_errors msg (a ++ b) = logged_errors msg a ++ logged_errors msg b.
Proof. reader_app a. Qed.

Lemma watch_spawned_app (a b : trace) :
  watch_spawned (a ++ b) = watch_spawned a || watch_spawned b.
Proof. unfold watch_spawned. apply existsb_app. Qed.

(** A stretch of stop requests has no start, no deadline, no log. *)
Lemma stops_only (ctx : Context) (d : trace) :
  Forall (is_stop_under ctx) d ->
  started d = [] /\ timeouts d = [] /\ waited d = [] /\
  failed_starts d = [] /\ watch_spawned d = false /\
  (forall msg, logged_errors msg d = []) /\
  stopped d = map (fun pc => (fst pc, ctx)) (stopped d).
Proof.
  induction 1 as [|a d Ha Hd IH].
  - repeat split.
  - destruct a; simpl in Ha; try contradiction. subst ctx0.
    destruct IH as (I1 & I2 & I3 & I4 & I5 & I6 & I7).
    simpl. repeat split; auto. now rewrite <- I7.
Qed.

(** ** Paths *)

Lemma until_slash_no_slash (l : list ascii) (c : ascii) :
  In c (until_slash l) -> is_slash c = false.
Proof.
  induction l as [|x l IH]; simpl.
  - intros [].
  - destruct (is_slash x) eqn:E; simpl.
    + intros [].
    + intros [H|H]; [now subst | now apply IH].
Qed.

(** [path.Base] gives "/" or a single element. *)
Lemma path_Base_element (p : string) :
  path_Base p = "/" \/
  forall c, In c (list_ascii_of_string (path_Base p)) -> is_slash c = false.
Proof.
  unfold path_Base. destruct (String.eqb p "").
  - right. simpl. intros c [H|[]]. now subst.
  - destruct (String.eqb _ "") eqn:E.
    + now left.
    + right. intros c. rewrite list_ascii_of_string_of_list_ascii.
      rewrite <- in_rev. apply until_slash_no_slash.
Qed.

(** A path that starts with "./" is never a bare name: [exec.Command] does
    not look it up in PATH. *)
Lemma path_Base_launch_path (name : string) :
  String.eqb (path_Base (launch_path name)) (launch_path name) = false.
Proof.
  apply String.eqb_neq. intro E.
  destruct (path_Base_element (launch_path name)) as [H|H].
  - rewrite H in E. discriminate E.
  - rewrite E in H. specialize (H slash). simpl in H.
    assert (F : is_slash slash = false) by (apply H; right; now left).
    discriminate F.
Qed.

Lemma components_aux_no_slash (l cur : list ascii) :
  (forall c, In c l -> is_slash c = false) ->
  components_aux l cur = [string_of_list_ascii (rev cur ++ l)].
Proof.
  revert cur. induction l as [|x l IH]; intros cur H; simpl.
  - now rewrite app_nil_r.
  - rewrite (H x (or_introl eq_refl)).
    rewrite IH by (intros c Hc; apply H; now right).
    simpl. now rewrite <- app_assoc.
Qed.

Lemma is_filename_no_slash (name : string) :
  is_filename name = true ->
  forall c, In c (list_ascii_of_string name) -> is_slash c = false.
Proof.
  unfold is_filename. rewrite !andb_true_iff, negb_true_iff.
  intros [[[H _] _] _] c Hc.
  destruct (is_slash c) eqn:E; [|reflexivity].
  assert (X : existsb is_slash (list_ascii_of_string name) = true).
  { apply existsb_exists. now exists c. }
  congruence.
Qed.

(** The path of a launch of a file name has two elements: the current
    directory and the name. *)
Lemma components_launch_path (name : string) :
  is_filename name = true ->
  components (launch_path name) = ["."; name].
Proof.
  intro H. unfold components, launch_path. simpl.
  rewrite components_aux_no_slash by now apply is_filename_no_slash.
  simpl. now rewrite string_of_list_ascii_of_string.
Qed.

(** ** The process launcher *)

Section Launcher.

Variable env : Env.

Lemma exec_Command_launch_path (name : string) (t : trace) :
  exec_Command env (launch_path name) t =
  (mkCmd (launch_path name) [launch_path name] "" None None None, t).
Proof.
  unfold exec_Command. now rewrite path_Base_launch_path.
Qed.

(** What a launch does: one start of [launch_cmd], whose result it returns,
    and one log line when the start failed. *)
Lemma startPluginApp_run (s : Server) (name : string) (t : trace) :
  startPluginApp env s name t =
  (proc_start env t (launch_cmd s name),
   t ++ CmdStart (launch_cmd s name) (proc_start env t (launch_cmd s name))
     :: match proc_start env t (launch_cmd s name) with
        | Some e => [Log Error "starting plugin process failed"
                         [zap_Error e; zap_String "plugin" name]]
        | None => []
        end).
Proof.
  unfold startPluginApp, bind.
  change ("./" ++ name)%string with (launch_path name).
  rewrite exec_Command_launch_path. simpl.
  unfold Cmd_Start, bind, ask, emit, ret, log. simpl.
  fold (launch_cmd s name).
  destruct (proc_start env t (launch_cmd s name)) as [e|]; simpl.
  - unfold emit. now rewrite <- app_assoc.
  - reflexivity.
Qed.

Lemma launch_path_not_parent_relative (name : string) :
  is_filename name = true ->
  is_parent_relative (launch_path name) = false.
Proof.
  intro H. unfold is_parent_relative.
  rewrite components_launch_path by exact H.
  unfold is_filename in H. rewrite !andb_true_iff, !negb_true_iff in H.
  destruct H as [_ H].
  assert (E : String.eqb ".." name = false)
    by (rewrite String.eqb_sym; exact H).
  unfold existsb. rewrite E. reflexivity.
Qed.

End Launcher.

(** C8: for every file name, a launch starts exactly one command, whose
    path is the name under the current directory (two elements: "." and the
    name, so neither absolute nor through the parent directory, and never
    looked up in PATH), whose working directory is the plugin directory and
    whose standard output and error are the server's own; the launch returns
    what the start of the process answers (the error when the start fails)
    and waits for no process. *)
Theorem startPluginApp_runs_file_in_plugin_dir
    (env : Env) (s : Server) (name : string) (t : trace) :
  is_filename name = true ->
  exists cmd d,
    startPluginApp env s name t = (proc_start env t cmd, t ++ d) /\
    started d = [cmd] /\
    waited d = [] /\
    Path cmd = launch_path name /\
    components (Path cmd) = ["."; name] /\
    is_absolute (Path cmd) = false /\
    is_parent_relative (Path cmd) = false /\
    cmd_Dir cmd = Dir (opts s) /\
    Stdout cmd = Some os_Stdout /\
    Stderr cmd = Some os_Stderr /\
    Err cmd = None.
Proof.
  intro H. exists (launch_cmd s name). eexists.
  split; [apply startPluginApp_run|].
  split; [simpl; now destruct (proc_start env t (launch_cmd s name))|].
  split; [simpl; now destruct (proc_start env t (launch_cmd s name))|].
  split; [reflexivity|].
  split; [now apply components_launch_path|].
  split; [reflexivity|].
  split; [now apply launch_path_not_parent_relative|].
  repeat split.
Qed.

Lemma startPluginApp_runs_file_in_plugin_dir_witness :
  exists cmd d,
    startPluginApp calm (server_with []) "echo-plugin" [] =
      (proc_start calm [] cmd, [] ++ d) /\
    started d = [cmd] /\
    waited d = [] /\
    Path cmd = launch_path "echo-plugin" /\
    components (Path cmd) = ["."; "echo-plugin"] /\
    is_absolute (Path cmd) = false /\
    is_parent_relative (Path cmd) = false /\
    cmd_Dir cmd = Dir (opts (server_with [])) /\
    Stdout cmd = Some os_Stdout /\
    Stderr cmd = Some os_Stderr /\
    Err cmd = None.
Proof.
  apply (@startPluginApp_runs_file_in_plugin_dir
           calm (server_with []) "echo-plugin" []).
  reflexivity.
Defined.

(** ** The shutdown coordinator *)

Section Coordinator.

Variable env : Env.

(** The stop loop asks every instance of the list once, in order, under the
    context it was given, and does nothing else. *)
Lemma stop_each_run (ps : list Plugin) (ctx : Context) :
  forall t, exists d,
    stop_each env ps ctx t = (tt, t ++ d) /\
    Forall (is_stop_under ctx) d /\
    stopped d = map (fun p => (p, ctx)) ps.
Proof.
  induction ps as [|p ps IH]; intro t; simpl.
  - exists []. unfold ret. rewrite app_nil_r. repeat split. constructor.
  - unfold bind, Plugin_Stop, ask, emit, ret. simpl.
    destruct (IH (t ++ [PluginStop p ctx (plugin_stop env t p ctx)]))
      as (d & E & F & S).
    exists (PluginStop p ctx (plugin_stop env t p ctx) :: d).
    rewrite E. split; [now rewrite <- app_assoc|].
    split; [constructor; [reflexivity|exact F]|].
    simpl. now rewrite S.
Qed.

Lemma context_WithTimeout_run (d : Z) (t : trace) :
  context_WithTimeout env d t =
  (mkContext (time_Now env t + d),
   t ++ [WithTimeout (mkContext (time_Now env t + d))]).
Proof. reflexivity. Qed.

(** One invocation of the stop procedure: one deadline, the stop requests
    of the matching entries under it, the release of the deadline; the
    result is nil whatever the requests answered. *)
Lemma stopPluginApp_run (s : Server) (name : string) (t : trace) :
  exists d,
    stopPluginApp env s name t =
      (None, t ++ WithTimeout (stop_ctx env t) :: d
               ++ [Cancel (stop_ctx env t)]) /\
    Forall (is_stop_under (stop_ctx env t)) d /\
    stopped d = stop_requests s name (stop_ctx env t).
Proof.
  unfold stopPluginApp, bind. rewrite context_WithTimeout_run.
  fold (stop_ctx env t). unfold emit, ret.
  destruct (stop_each_run (getByName (pluginManager_of s) name)
                          (stop_ctx env t)
                          (t ++ [WithTimeout (stop_ctx env t)]))
    as (d & E & F & S).
  exists d. rewrite E. split.
  - f_equal. rewrite <- !app_assoc. reflexivity.
  - split; assumption.
Qed.

End Coordinator.

(** C4: one invocation of stop-by-filename creates one deadline, three
    seconds after the time of the call, every matching instance is asked to
    stop under that same deadline, and the invocation returns nil whatever
    the instances answered (the environment, hence every timeout or
    connection error, is arbitrary). *)
Theorem stopPluginApp_one_deadline_never_fails
    (env : Env) (s : Server) (name : string) (t : trace) :
  exists d,
    stopPluginApp env s name t = (None, t ++ d) /\
    timeouts d = [mkContext (time_Now env t + 3000000000)] /\
    stopped d =
      map (fun p => (p, mkContext (time_Now env t + 3000000000)))
          (getByName (pluginManager_of s) name) /\
    started d = [].
Proof.
  destruct (stopPluginApp_run env s name t) as (d & E & F & S).
  destruct (stops_only F) as (S1 & S2 & _).
  eexists. split; [exact E|].
  cbn [timeouts stopped started].
  rewrite timeouts_app, stopped_app, started_app, S1, S2, S. simpl.
  rewrite app_nil_r. repeat split.
Qed.

(** ** Restart *)

(** The restart procedure, called on a name: it first runs the stop
    procedure for the registry entries of the file, then launches the file,
    whatever the registry holds (no entry at all included) and whatever the
    stop requests answered; its result is the launch's. *)
Theorem restartPlugin_stops_then_always_launches
    (env : Env) (s : Server) (name : string) (t : trace) :
  exists d1 d2 r,
    stopPluginApp env s name t = (None, t ++ d1) /\
    startPluginApp env s name (t ++ d1) = (r, (t ++ d1) ++ d2) /\
    restartPlugin env s name t = (r, t ++ d1 ++ d2) /\
    stopped d1 = stop_requests s name (stop_ctx env t) /\
    started d1 = [] /\
    stopped d2 = [] /\
    started d2 = [launch_cmd s name].
Proof.
  destruct (stopPluginApp_run env s name t) as (d & E & F & S).
  destruct (stops_only F) as (S1 & S2 & _).
  pose proof (startPluginApp_run env s name
                (t ++ WithTimeout (stop_ctx env t) :: d
                   ++ [Cancel (stop_ctx env t)])) as L.
  eexists. eexists. eexists.
  split; [exact E|].
  split; [exact L|].
  split.
  - unfold restartPlugin, bind. rewrite E, L.
    rewrite <- app_assoc.
    now destruct (proc_start env _ (launch_cmd s name)).
  - cbn [stopped started].
    rewrite stopped_app, started_app, S, S1. simpl.
    rewrite app_nil_r.
    destruct (proc_start env _ (launch_cmd s name)); repeat split.
Qed.

(** ** The startup scan *)

Section Scan.

Variable env : Env.

(** The scan loop launches the regular files of the listing, one start
    each, in the order of the listing, logs every failed start and goes on;
    it neither stops an instance nor spawns the watch task. *)
Lemma startPlugins_loop_run (s : Server) (files : list DirEntry) :
  forall t, exists d,
    startPlugins_loop env s files t = (tt, t ++ d) /\
    started d = map (launch_cmd s) (regular_files files) /\
    logged_errors "start plugin error" d = failed_starts d /\
    watch_spawned d = false /\
    stopped d = [].
Proof.
  unfold regular_files.
  induction files as [|f files IH]; intro t; simpl.
  - exists []. unfold ret. now rewrite app_nil_r.
  - destruct (IsDir f) eqn:D; simpl.
    + apply IH.
    + unfold bind, log, emit.
      rewrite startPluginApp_run.
      set (t1 := t ++ [Log Info "Plugin start"
                           [zap_String "plugin" (Name f)]]).
      destruct (proc_start env t1 (launch_cmd s (Name f))) as [e|] eqn:P.
      * match goal with
        | |- context [startPlugins_loop env s files ?u] =>
            destruct (IH u) as (d & E & S & L & W & St)
        end.
        rewrite E. eexists. split.
        { subst t1. rewrite <- !app_assoc. simpl. reflexivity. }
        simpl. rewrite S, L, W, St. repeat split.
      * destruct (IH (t1 ++ [CmdStart (launch_cmd s (Name f)) None]))
          as (d & E & S & L & W & St).
        rewrite E. eexists. split.
        { subst t1. rewrite <- !app_assoc. simpl. reflexivity. }
        simpl. rewrite S, L, W, St. repeat split.
Qed.

End Scan.

(** C3: when the plugin directory can be listed, the startup scan starts
    one command for each regular file of the listing (the listing is that
    of the directory itself; its subdirectories are skipped), whatever any
    of the starts answers; every failed start is logged; the watch task is
    spawned after the scan, once. *)
Theorem startPlugins_launches_every_regular_file
    (env : Env) (s : Server) (t : trace) (files : list DirEntry) :
  os_ReadDir env t (Dir (opts s)) = (files, None) ->
  exists d,
    startPlugins env s t = (None, t ++ d ++ [GoWatchPlugins]) /\
    started d = map (launch_cmd s) (regular_files files) /\
    launched_paths d = map launch_path (regular_files files) /\
    logged_errors "start plugin error" d = failed_starts d /\
    watch_spawned d = false.
Proof.
  intro R.
  destruct (startPlugins_loop_run env s files t) as (d & E & S & L & W & _).
  exists d. split.
  - unfold startPlugins, bind, ask. rewrite R, E.
    unfold emit, ret. now rewrite <- app_assoc.
  - split; [exact S|]. split; [|split; assumption].
    unfold launched_paths. rewrite S, map_map. reflexivity.
Qed.

Lemma startPlugins_launches_every_regular_file_witness :
  exists d,
    startPlugins boot_env (server_with []) [] =
      (None, [] ++ d ++ [GoWatchPlugins]) /\
    started d =
      map (launch_cmd (server_with [])) (regular_files boot_listing) /\
    launched_paths d = map launch_path (regular_files boot_listing) /\
    logged_errors "start plugin error" d = failed_starts d /\
    watch_spawned d = false.
Proof.
  apply (@startPlugins_launches_every_regular_file
           boot_env (server_with []) [] boot_listing).
  reflexivity.
Defined.

(** On the sample directory: the file that cannot be executed is logged,
    the file after it is launched all the same, the directory is skipped. *)
Example startPlugins_boot_listing :
  launched_paths (snd (startPlugins boot_env (server_with []) [])) =
    ["./bad-plugin"; "./echo-plugin"] /\
  failed_starts (snd (startPlugins boot_env (server_with []) [])) =
    [ErrPermission] /\
  logged_errors "start plugin error"
                (snd (startPlugins boot_env (server_with []) [])) =
    [ErrPermission] /\
  fst (startPlugins boot_env (server_with []) []) = None.
Proof. repeat split. Qed.

(** ** The watch loop *)

Section Watch.

Variable env : Env.

Lemma startPluginApp_silent (s : Server) (name : string) (t : trace) :
  exists r d, startPluginApp env s name t = (r, t ++ d) /\ silent d.
Proof.
  rewrite startPluginApp_run. eexists. eexists. split; [reflexivity|].
  unfold silent.
  now destruct (proc_start env t (launch_cmd s name)).
Qed.

Lemma stopPluginApp_silent (s : Server) (name : string) (t : trace) :
  exists d, stopPluginApp env s name t = (None, t ++ d) /\ silent d.
Proof.
  destruct (stopPluginApp_run env s name t) as (d & E & F & _).
  destruct (stops_only F) as (_ & _ & _ & _ & _ & Q & _).
  eexists. split; [exact E|].
  unfold silent. cbn [logged_errors].
  rewrite logged_errors_app, Q. reflexivity.
Qed.

Lemma restartPlugin_silent (s : Server) (name : string) (t : trace) :
  exists r d, restartPlugin env s name t = (r, t ++ d) /\ silent d.
Proof.
  destruct (stopPluginApp_silent s name t) as (d1 & E1 & Q1).
  destruct (startPluginApp_silent s name (t ++ d1)) as (r & d2 & E2 & Q2).
  exists r, (d1 ++ d2). split.
  - unfold restartPlugin, bind. rewrite E1, E2, <- app_assoc.
    now destruct r.
  - unfold silent in *. now rewrite logged_errors_app, Q1, Q2.
Qed.

Lemma watch_dispatch_silent (s : Server) (event : Event) (t : trace) :
  exists d, watch_dispatch env s event t = (tt, t ++ d) /\ silent d.
Proof.
  unfold watch_dispatch.
  destruct (Has event fsnotify_Create).
  { unfold bind, log, emit.
    destruct (startPluginApp_silent s (path_Base (ev_Name event))
                (t ++ [Log Info "Plugin file created"
                           [zap_String "plugin"
                                       (path_Base (ev_Name event))]]))
      as (r & d & E & Q).
    rewrite E. destruct r as [e|].
    - eexists. split; [rewrite <- !app_assoc; reflexivity|].
      unfold silent in *. simpl. now rewrite logged_errors_app, Q.
    - eexists. unfold ret. split; [rewrite <- !app_assoc; reflexivity|].
      exact Q. }
  destruct (Has event fsnotify_Write).
  { unfold bind, log, emit.
    destruct (restartPlugin_silent s (path_Base (ev_Name event))
                (t ++ [Log Info "Plugin file changed"
                           [zap_String "plugin"
                                       (path_Base (ev_Name event))]]))
      as (r & d & E & Q).
    rewrite E. destruct r as [e|].
    - eexists. split; [rewrite <- !app_assoc; reflexivity|].
      unfold silent in *. simpl. now rewrite logged_errors_app, Q.
    - eexists. unfold ret. split; [rewrite <- !app_assoc; reflexivity|].
      exact Q. }
  destruct (Has event fsnotify_Remove || Has event fsnotify_Rename).
  { unfold bind, log, emit.
    destruct (stopPluginApp_silent s (path_Base (ev_Name event))
                (t ++ [Log Info "Plugin file removed"
                           [zap_String "plugin"
                                       (path_Base (ev_Name event))]]))
      as (d & E & Q).
    rewrite E. eexists. unfold ret.
    split; [rewrite <- !app_assoc; reflexivity|]. exact Q. }
  exists []. unfold ret. now rewrite app_nil_r.
Qed.

Lemma watch_event_silent (s : Server) (event : Event)
    (stat : option FileInfo * option error) (t : trace) :
  exists d, watch_event env s event stat t = (tt, t ++ d) /\ silent d.
Proof.
  assert (Skip : exists d, ret tt t = (tt, t ++ d) /\ silent d).
  { exists []. unfold ret. now rewrite app_nil_r. }
  unfold watch_event. destruct stat as [fileInfo [e|]].
  - destruct (negb (os_IsNotExist (Some e))).
    + eexists. split; [reflexivity|]. unfold silent. simpl. reflexivity.
    + destruct fileInfo as [fi|]; [destruct (fi_IsDir fi)|];
        auto using watch_dispatch_silent.
  - destruct fileInfo as [fi|]; [destruct (fi_IsDir fi)|];
      auto using watch_dispatch_silent.
Qed.

(** The loop over a sequence of deliveries: it has returned exactly when a
    closure was delivered, and then with nil; the watcher errors delivered
    before that are all logged, in order. *)
Lemma watch_loop_run (s : Server) (ds : list delivery) :
  forall t, exists d,
    watch_loop env s ds t =
      (if existsb is_closure ds then Some None else None, t ++ d) /\
    logged_errors "watcher error" d = watcher_errors (before_closure ds).
Proof.
  induction ds as [|x ds IH]; intro t.
  - exists []. simpl. unfold ret. now rewrite app_nil_r.
  - destruct x as [event stat pm | | e | ]; simpl.
    + unfold bind.
      destruct (watch_event_silent (with_registry s pm) event stat t)
        as (d1 & E1 & Q1).
      rewrite E1. destruct (IH (t ++ d1)) as (d2 & E2 & Q2).
      rewrite E2. exists (d1 ++ d2). split; [now rewrite app_assoc|].
      rewrite logged_errors_app, Q2. unfold silent in Q1. now rewrite Q1.
    + exists []. unfold ret. now rewrite app_nil_r.
    + unfold bind, log, emit.
      destruct (IH (t ++ [Log Error "watcher error" [zap_Error e]]))
        as (d2 & E2 & Q2).
      rewrite E2. eexists. split; [rewrite <- app_assoc; reflexivity|].
      simpl. now rewrite Q2.
    + exists []. unfold ret. now rewrite app_nil_r.
Qed.

End Watch.

(** C7: over any sequence of deliveries the watch loop has returned exactly
    when one of them told that a watcher channel is closed, and it then
    returned nil, never an error; a watcher error is logged and the loop
    goes on with the deliveries that follow, so that every error delivered
    before the closure is in the log. *)
Theorem watch_loop_ends_only_on_closure_and_cleanly
    (env : Env) (s : Server) (ds : list delivery) (t : trace) :
  (exists d,
     watch_loop env s ds t =
       (if existsb is_closure ds then Some None else None, t ++ d) /\
     logged_errors "watcher error" d = watcher_errors (before_closure ds)) /\
  (forall r, fst (watch_loop env s ds t) = Some r <->
             r = None /\ existsb is_closure ds = true) /\
  (forall e rest,
     watch_loop env s (RecvError e :: rest) t =
     watch_loop env s rest (t ++ [Log Error "watcher error" [zap_Error e]])).
Proof.
  destruct (watch_loop_run env s ds t) as (d & E & Q).
  split; [exists d; split; assumption|].
  split; [|reflexivity].
  intro r. rewrite E. simpl.
  destruct (existsb is_closure ds); split.
  - intro H. inversion H. now split.
  - intros [H _]. now subst.
  - discriminate.
  - intros [_ H]. discriminate H.
Qed.

(** ** Remove and rename events *)

(** C6 as stated fails: a remove event for the file of a registered
    instance, for whose path [os.Stat] answers an error other than
    not-exist, is logged and dropped; the instance is not asked to stop. *)
Lemma remove_event_dropped_on_stat_error :
  Has echo_removed fsnotify_Remove = true /\
  getByName (pluginManager_of (server_with [echo_1]))
            (path_Base (ev_Name echo_removed)) = [echo_1] /\
  watch_event calm (server_with [echo_1]) echo_removed stat_denied [] =
    (tt, [Log Error "stat file error" [zap_Error ErrPermission]]) /\
  stopped (snd (watch_event calm (server_with [echo_1]) echo_removed
                            stat_denied [])) = [] /\
  ~ (forall (env : Env) (s : Server) (event : Event)
            (stat : option FileInfo * option error) (t : trace),
        Has event fsnotify_Remove = true \/
        Has event fsnotify_Rename = true ->
        exists ctx d,
          watch_event env s event stat t = (tt, t ++ d) /\
          stopped d = stop_requests s (path_Base (ev_Name event)) ctx /\
          started d = []).
Proof.
  split; [reflexivity|]. split; [reflexivity|].
  split; [reflexivity|]. split; [reflexivity|].
  intro H.
  destruct (H calm (server_with [echo_1]) echo_removed stat_denied []
              (or_introl eq_refl)) as (ctx & d & E & S & _).
  vm_compute in E. inversion E; subst d.
  vm_compute in S. discriminate S.
Qed.

(** C6, amended: a remove or rename event that carries neither the create
    nor the write bit, and for whose path [os.Stat] answers without error
    or with not-exist and finds no directory, makes the controller run the
    stop procedure for all registry entries of the file named by the
    event, under one deadline, and start no process. *)
Theorem remove_event_stops_and_never_launches
    (env : Env) (s : Server) (event : Event)
    (stat : option FileInfo * option error) (t : trace) :
  Has event fsnotify_Remove = true \/ Has event fsnotify_Rename = true ->
  Has event fsnotify_Create = false ->
  Has event fsnotify_Write = false ->
  stat_lets_through stat = true ->
  exists ctx d,
    watch_event env s event stat t = (tt, t ++ d) /\
    stopped d = stop_requests s (path_Base (ev_Name event)) ctx /\
    timeouts d = [ctx] /\
    started d = [].
Proof.
  intros K NC NW G.
  assert (D : watch_event env s event stat t = watch_dispatch env s event t).
  { unfold watch_event, stat_lets_through in *.
    destruct stat as [fileInfo [e|]]; cbn [fst snd] in G;
      apply andb_true_iff in G; destruct G as [G1 G2].
    - rewrite G1. simpl.
      destruct fileInfo as [fi|]; [|reflexivity].
      apply negb_true_iff in G2. now rewrite G2.
    - destruct fileInfo as [fi|]; [|reflexivity].
      apply negb_true_iff in G2. now rewrite G2. }
  rewrite D. unfold watch_dispatch. rewrite NC, NW.
  assert (K' : Has event fsnotify_Remove || Has event fsnotify_Rename = true)
    by (apply orb_true_iff; exact K).
  rewrite K'. unfold bind, log, emit.
  set (t1 := t ++ [Log Info "Plugin file removed"
                       [zap_String "plugin" (path_Base (ev_Name event))]]).
  destruct (stopPluginApp_run env s (path_Base (ev_Name event)) t1)
    as (d & E & F & S).
  destruct (stops_only F) as (S1 & S2 & _).
  rewrite E. exists (stop_ctx env t1). eexists. unfold ret.
  split; [subst t1; rewrite <- !app_assoc; reflexivity|].
  cbn [app stopped timeouts started].
  rewrite stopped_app, timeouts_app, started_app, S, S1, S2. simpl.
  rewrite app_nil_r. repeat split.
Qed.

Lemma remove_event_stops_and_never_launches_witness :
  exists ctx d,
    watch_event boot_env (server_with [echo_1]) echo_removed stat_gone [] =
      (tt, [] ++ d) /\
    stopped d =
      stop_requests (server_with [echo_1])
                    (path_Base (ev_Name echo_removed)) ctx /\
    timeouts d = [ctx] /\
    started d = [].
Proof.
  apply (@remove_event_stops_and_never_launches
           boot_env (server_with [echo_1]) echo_removed stat_gone []).
  - left. reflexivity.
  - reflexivity.
  - reflexivity.
  - reflexivity.
Defined.

(** On the sample registry the instance of the removed file is asked to
    stop once, although its stop request times out. *)
Example remove_event_sample :
  stopped (snd (watch_event boot_env (server_with [echo_1; idle_1])
                            echo_removed stat_gone [])) =
    [(echo_1, mkContext 3000001000)].
Proof. reflexivity. Qed.

(** ** Construction *)

(** When everything succeeds the server is built, the socket file of the
    previous run being absent. *)
Example NewServer_builds :
  NewServer (setup_env None (Some ErrNotExist) (fun _ => true) "" None)
            join_slash dir_of plugin_opts [] =
  (Returns (Some (mkServer ("unix://" ++ socket_path)%string
                           (mkPluginManager []) plugin_opts
                           "/plugins/plugindata")),
   [Remove socket_path (Some ErrNotExist);
    MkdirAll "/home/wk/.wukong/run" 511 None;
    MkdirAll "/plugins" 511 None;
    MkdirAll "/plugins/plugindata" 511 None;
    Chmod "/plugins" 365 None]).
Proof. reflexivity. Qed.

(** The socket path cannot be prepared: the home directory is unknown, the
    stale socket file cannot be removed, or its directory cannot be
    created.  Each one panics. *)
Example NewServer_socket_failures_panic :
  fst (NewServer (setup_env (Some (ErrOther "$HOME is not defined")) None
                            (fun _ => false) "" None)
                 join_slash dir_of plugin_opts []) =
    Panics (ErrOther "$HOME is not defined") /\
  NewServer (setup_env None (Some ErrPermission) (fun _ => false) "" None)
            join_slash dir_of plugin_opts [] =
    (Panics ErrPermission,
     [Remove socket_path (Some ErrPermission);
      StdLogRemoving socket_path ErrPermission]) /\
  fst (NewServer (setup_env None None (fun _ => false)
                            "/home/wk/.wukong/run" None)
                 join_slash dir_of plugin_opts []) =
    Panics ErrPermission.
Proof. repeat split. Qed.

(** The plugin directory or the sandbox directory cannot be created: each
    one panics. *)
Example NewServer_directory_failures_panic :
  fst (NewServer (setup_env None None (fun _ => true) "/plugins" None)
                 join_slash dir_of plugin_opts []) =
    Panics ErrPermission /\
  fst (NewServer (setup_env None None (fun _ => true)
                            "/plugins/plugindata" None)
                 join_slash dir_of plugin_opts []) =
    Panics ErrPermission.
Proof. repeat split. Qed.

(** C5, where the code departs from it: the mode of the plugin directory
    cannot be changed.  The construction does not panic; it returns the nil
    server, and neither logs nor reports the error. *)
Theorem NewServer_chmod_failure_returns_nil :
  NewServer (setup_env None None (fun _ => false) "" (Some ErrPermission))
            join_slash dir_of plugin_opts [] =
  (Returns None,
   [Remove socket_path None;
    MkdirAll "/home/wk/.wukong/run" 511 None;
    Chmod "/plugins" 365 (Some ErrPermission)]).
Proof. reflexivity. Qed.

(** The same for every environment, next to the sibling steps: a failure
    of the socket path or of either directory panics with the error, a
    failure of the change of mode returns the nil server. *)
Section Construction.

Variable env : Env.
Variable path_Join : list string -> string.
Variable path_Dir : string -> string.
Variable o : Options.

Lemma NewServer_socket_error_panics (t t1 : trace) (addr : string)
    (e : error) :
  getUnixSocket env path_Join path_Dir t = (Returns (addr, Some e), t1) ->
  NewServer env path_Join path_Dir o t = (Panics e, t1).
Proof.
  intro S. unfold NewServer, bind. now rewrite S.
Qed.

Lemma NewServer_plugin_dir_error_panics (t t1 t2 : trace) (addr : string)
    (e : error) :
  getUnixSocket env path_Join path_Dir t = (Returns (addr, None), t1) ->
  ensure_dir env (Dir o) t1 = (Some e, t2) ->
  NewServer env path_Join path_Dir o t = (Panics e, t2).
Proof.
  intros S D. unfold NewServer, bind. now rewrite S, D.
Qed.

Lemma NewServer_sandbox_error_panics (t t1 t2 t3 : trace) (addr : string)
    (e : error) :
  getUnixSocket env path_Join path_Dir t = (Returns (addr, None), t1) ->
  ensure_dir env (Dir o) t1 = (None, t2) ->
  ensure_dir env (path_Join [Dir o; "plugindata"]) t2 = (Some e, t3) ->
  NewServer env path_Join path_Dir o t = (Panics e, t3).
Proof.
  intros S D B. unfold NewServer, bind. now rewrite S, D, B.
Qed.

Lemma NewServer_chmod_error_returns_nil (t t1 t2 t3 : trace) (addr : string)
    (e : error) :
  getUnixSocket env path_Join path_Dir t = (Returns (addr, None), t1) ->
  ensure_dir env (Dir o) t1 = (None, t2) ->
  ensure_dir env (path_Join [Dir o; "plugindata"]) t2 = (None, t3) ->
  os_Chmod env t3 (Dir o) 365 = Some e ->
  NewServer env path_Join path_Dir o t =
    (Returns None, t3 ++ [Chmod (Dir o) 365 (Some e)]).
Proof.
  intros S D B C. unfold NewServer, bind. rewrite S, D, B.
  unfold sys_Chmod, bind, ask, emit, ret. now rewrite C.
Qed.

(** A failing creation of a directory that is absent is what [ensure_dir]
    reports. *)
Lemma ensure_dir_creation_failure (dir : string) (t : trace) (e : error) :
  os_IsNotExist (snd (os_Stat env t dir)) = true ->
  os_MkdirAll env t dir os_ModePerm = Some e ->
  ensure_dir env dir t = (Some e, t ++ [MkdirAll dir os_ModePerm (Some e)]).
Proof.
  intros N F. unfold ensure_dir, bind, ask. rewrite N.
  unfold sys_MkdirAll, bind, ask, emit, ret. now rewrite F.
Qed.

End Construction.

(** ** Write events reach the restart procedure *)

Lemma watch_event_passes_guards (env : Env) (s : Server) (event : Event)
    (stat : option FileInfo * option error) (t : trace) :
  stat_lets_through stat = true ->
  watch_event env s event stat t = watch_dispatch env s event t.
Proof.
  intro G. unfold watch_event, stat_lets_through in *.
  destruct stat as [fileInfo [e|]]; cbn [fst snd] in G;
    apply andb_true_iff in G; destruct G as [G1 G2].
  - rewrite G1. simpl.
    destruct fileInfo as [fi|]; [|reflexivity].
    apply negb_true_iff in G2. now rewrite G2.
  - destruct fileInfo as [fi|]; [|reflexivity].
    apply negb_true_iff in G2. now rewrite G2.
Qed.

(** A write event that is not also a create event, and that passes the two
    guards, is answered by the restart procedure for the file it names. *)
Lemma write_event_restarts (env : Env) (s : Server) (event : Event)
    (stat : option FileInfo * option error) (t : trace) :
  Has event fsnotify_Create = false ->
  Has event fsnotify_Write = true ->
  stat_lets_through stat = true ->
  let name := path_Base (ev_Name event) in
  let t1 := t ++ [Log Info "Plugin file changed" [zap_String "plugin" name]] in
  watch_event env s event stat t =
  (tt, snd (restartPlugin env s name t1)
       ++ match fst (restartPlugin env s name t1) with
          | Some e => [Log Error "restart plugin error" [zap_Error e]]
          | None => []
          end).
Proof.
  intros NC W G name t1.
  rewrite watch_event_passes_guards by exact G.
  unfold watch_dispatch. rewrite NC, W. unfold bind, log, emit.
  fold name. fold t1.
  destruct (restartPlugin env s name t1) as [[e|] t2]; simpl.
  - reflexivity.
  - unfold ret. now rewrite app_nil_r.
Qed.

(** ** Start of the server *)

(** When the channel endpoint cannot start, nothing is launched. *)
Lemma Start_rpc_failure (env : Env) (s : Server) (t : trace) (e : error) :
  rpc_Start env t = Some e ->
  Start env s t = (Some e, t ++ [RpcStart (Some e)]).
Proof.
  intro H. unfold Start, bind, ask, emit, ret. now rewrite H.
Qed.

(** * Further properties of the code *)

(** ** The capability query in the requested methods *)

Lemma visible_set_equal (ms ms' : list PluginMethod) (p : Plugin) :
  set_equal ms ms' -> visible ms p = visible ms' p.
Proof.
  intro E. apply eq_true_iff_eq. rewrite !visible_iff.
  assert (N : ms = [] <-> ms' = []).
  { split; intro H; subst.
    - destruct ms' as [|m r]; [reflexivity|].
      destruct (proj2 (E m) (or_introl eq_refl)).
    - destruct ms as [|m r]; [reflexivity|].
      destruct (proj1 (E m) (or_introl eq_refl)). }
  split; intros [H1 [H2|[m [H2 H3]]]]; split; auto.
  - left. now apply N.
  - right. exists m. split; [now apply E|exact H3].
  - left. now apply N.
  - right. exists m. split; [now apply E|exact H3].
Qed.

(** X1: the result of the capability query depends on the requested
    methods as a set only: a request that lists the same methods in
    another order, or some of them twice, gives the same list. *)
Theorem Plugins_request_as_set
    (s : Server) (ms ms' : list PluginMethod) :
  set_equal ms ms' -> Plugins s ms = Plugins s ms'.
Proof.
  intro E. rewrite !Plugins_refines. unfold listByCapability.
  apply filter_ext. intro p. now apply visible_set_equal.
Qed.

Lemma Plugins_request_as_set_witness :
  Plugins (server_with [echo_1; echo_2; idle_1]) ["send"; "echo"; "send"] =
  Plugins (server_with [echo_1; echo_2; idle_1]) ["echo"; "send"].
Proof.
  apply (@Plugins_request_as_set (server_with [echo_1; echo_2; idle_1])
                                 ["send"; "echo"; "send"] ["echo"; "send"]).
  intro x. simpl. tauto.
Defined.

(** X2: for two non-empty requests, the query for both together returns
    the instances that one of the two queries returns. *)
Theorem Plugins_of_joined_requests
    (s : Server) (ms1 ms2 : list PluginMethod) (p : Plugin) :
  ms1 <> [] -> ms2 <> [] ->
  (In p (Plugins s (ms1 ++ ms2)) <->
   In p (Plugins s ms1) \/ In p (Plugins s ms2)).
Proof.
  intros N1 N2. rewrite !In_Plugins_iff, !visible_iff.
  assert (N : ms1 ++ ms2 <> []).
  { intro H. apply app_eq_nil in H. tauto. }
  split.
  - intros [Hin [Hn [H|[m [Hm Hd]]]]]; [contradiction|].
    apply in_app_iff in Hm. destruct Hm as [Hm|Hm].
    + left. repeat split; auto. right. now exists m.
    + right. repeat split; auto. right. now exists m.
  - intros [[Hin [Hn [H|[m [Hm Hd]]]]]|[Hin [Hn [H|[m [Hm Hd]]]]]];
      try contradiction; repeat split; auto; right; exists m;
      (split; [apply in_app_iff; auto|exact Hd]).
Qed.

Lemma Plugins_of_joined_requests_witness :
  In echo_2 (Plugins (server_with [echo_1; echo_2]) (["send"] ++ ["nope"]))
  <->
  In echo_2 (Plugins (server_with [echo_1; echo_2]) ["send"]) \/
  In echo_2 (Plugins (server_with [echo_1; echo_2]) ["nope"]).
Proof.
  apply (@Plugins_of_joined_requests (server_with [echo_1; echo_2])
                                     ["send"] ["nope"] echo_2);
    discriminate.
Defined.

(** X3: a non-empty request that is widened never loses an instance, and
    every result lies within the result of the empty request; the empty
    request is the widest one, not the narrowest. *)
Theorem Plugins_monotone_in_request
    (s : Server) (ms ms' : list PluginMethod) :
  ms <> [] -> incl ms ms' ->
  incl (Plugins s ms) (Plugins s ms') /\
  incl (Plugins s ms') (Plugins s []).
Proof.
  intros N I. split; intros p; rewrite !In_Plugins_iff, !visible_iff.
  - intros [Hin [Hn [H|[m [Hm Hd]]]]]; [contradiction|].
    repeat split; auto. right. exists m. split; [now apply I|exact Hd].
  - intros [Hin [Hn _]]. repeat split; auto.
Qed.

Lemma Plugins_monotone_in_request_witness :
  incl (Plugins (server_with [echo_1; echo_2; idle_1]) ["send"])
       (Plugins (server_with [echo_1; echo_2; idle_1]) ["echo"; "send"]) /\
  incl (Plugins (server_with [echo_1; echo_2; idle_1]) ["echo"; "send"])
       (Plugins (server_with [echo_1; echo_2; idle_1]) []).
Proof.
  apply (@Plugins_monotone_in_request
           (server_with [echo_1; echo_2; idle_1]) ["send"] ["echo"; "send"]).
  - discriminate.
  - intros x [H|[]]. subst. right. now left.
Defined.

(** ** More readers over a sequence *)

Lemma cancelled_app (a b : trace) :
  cancelled (a ++ b) = cancelled a ++ cancelled b.
Proof. reader_app a. Qed.

Lemma error_lines_app (msg : string) (a b : trace) :
  error_lines msg (a ++ b) = error_lines msg a ++ error_lines msg b.
Proof. reader_app a. Qed.

Lemma watcher_closes_app (a b : trace) :
  watcher_closes (a ++ b) = watcher_closes a + watcher_closes b.
Proof. reader_app a. Qed.

Lemma stops_leave_rest (ctx : Context) (d : trace) :
  Forall (is_stop_under ctx) d ->
  cancelled d = [] /\ watcher_closes d = 0 /\
  (forall msg, error_lines msg d = []) /\ ~ In RpcStop d.
Proof.
  induction 1 as [|a d Ha Hd IH].
  - repeat split. intros [].
  - destruct a; simpl in Ha; try contradiction.
    destruct IH as (I1 & I2 & I3 & I4).
    simpl. repeat split; auto.
    intros [H|H]; [discriminate H|contradiction].
Qed.

(** ** The launcher on any name *)

Lemma components_launch_path_any (name : string) :
  components (launch_path name) = "." :: components name.
Proof. reflexivity. Qed.

(** X4: the launcher checks nothing about the name.  For every string,
    also one with slashes, it starts exactly one command, of path ./name
    (no lookup in PATH) and working directory the plugin directory; the
    elements of the path are "." followed by those of the name, so the
    path is never absolute and goes through a parent directory exactly
    when the name does. *)
Theorem startPluginApp_does_not_sanitise
    (env : Env) (s : Server) (name : string) (t : trace) :
  exists d,
    startPluginApp env s name t =
      (proc_start env t (launch_cmd s name), t ++ d) /\
    started d = [launch_cmd s name] /\
    Path (launch_cmd s name) = ("./" ++ name)%string /\
    cmd_Dir (launch_cmd s name) = Dir (opts s) /\
    components (Path (launch_cmd s name)) = "." :: components name /\
    is_absolute (Path (launch_cmd s name)) = false /\
    is_parent_relative (Path (launch_cmd s name)) = is_parent_relative name.
Proof.
  eexists. split; [apply startPluginApp_run|].
  split; [simpl; now destruct (proc_start env t (launch_cmd s name))|].
  repeat split.
Qed.

(** X5: a start that fails is returned to the caller as it is, logged once
    with the name of the plugin, and not tried again. *)
Theorem startPluginApp_failure_logged_once
    (env : Env) (s : Server) (name : string) (t : trace) (e : error) :
  proc_start env t (launch_cmd s name) = Some e ->
  exists d,
    startPluginApp env s name t = (Some e, t ++ d) /\
    started d = [launch_cmd s name] /\
    failed_starts d = [e] /\
    error_lines "starting plugin process failed" d =
      [[zap_Error e; zap_String "plugin" name]] /\
    List.length d = 2.
Proof.
  intro F. eexists. split.
  - rewrite startPluginApp_run, F. reflexivity.
  - repeat split.
Qed.

Lemma startPluginApp_failure_logged_once_witness :
  exists d,
    startPluginApp boot_env (server_with []) "bad-plugin" [] =
      (Some ErrPermission, [] ++ d) /\
    started d = [launch_cmd (server_with []) "bad-plugin"] /\
    failed_starts d = [ErrPermission] /\
    error_lines "starting plugin process failed" d =
      [[zap_Error ErrPermission; zap_String "plugin" "bad-plugin"]] /\
    List.length d = 2.
Proof.
  apply (@startPluginApp_failure_logged_once
           boot_env (server_with []) "bad-plugin" [] ErrPermission).
  reflexivity.
Defined.

(** ** The deadline of a stop *)

(** X6: an invocation of the stop procedure creates its deadline before
    the first stop request and releases it after the last one, on every
    path: what lies between is stop requests only, and when no entry
    matches the invocation is the creation and the release alone. *)
Theorem stopPluginApp_releases_its_deadline
    (env : Env) (s : Server) (name : string) (t : trace) :
  exists d,
    stopPluginApp env s name t =
      (None, t ++ WithTimeout (stop_ctx env t) :: d
               ++ [Cancel (stop_ctx env t)]) /\
    Forall (is_stop_under (stop_ctx env t)) d /\
    List.length d = List.length (getByName (pluginManager_of s) name) /\
    timeouts (WithTimeout (stop_ctx env t) :: d
                ++ [Cancel (stop_ctx env t)]) =
    cancelled (WithTimeout (stop_ctx env t) :: d
                 ++ [Cancel (stop_ctx env t)]).
Proof.
  destruct (stopPluginApp_run env s name t) as (d & E & F & S).
  exists d. split; [exact E|]. split; [exact F|].
  destruct (stops_only F) as (_ & T & _ & _ & _ & _ & St).
  destruct (stops_leave_rest F) as (C & _).
  split.
  - assert (L : List.length (stopped d) = List.length d).
    { clear - F. induction F as [|a d Ha Hd IH]; [reflexivity|].
      destruct a; simpl in Ha; try contradiction. simpl. now rewrite IH. }
    rewrite <- L, S. unfold stop_requests. now rewrite length_map.
  - cbn [timeouts cancelled]. rewrite timeouts_app, cancelled_app, T, C.
    reflexivity.
Qed.

(** X7: the stop procedure asks exactly the tracked instances of the file,
    whatever their status, and no instance of another file. *)
Theorem stopPluginApp_asks_instances_of_the_file_only
    (env : Env) (s : Server) (name : string) (t : trace) :
  exists d,
    stopPluginApp env s name t = (None, t ++ d) /\
    forall p ctx,
      In (p, ctx) (stopped d) <->
      In p (all (pluginManager_of s)) /\ plugin_name p = name /\
      ctx = stop_ctx env t.
Proof.
  destruct (stopPluginApp_run env s name t) as (d & E & F & S).
  eexists. split; [exact E|]. intros p ctx.
  cbn [stopped]. rewrite stopped_app, S. simpl.
  rewrite app_nil_r. unfold stop_requests, getByName, all.
  rewrite in_map_iff. split.
  - intros [q [Q Hin]]. inversion Q; subst.
    apply filter_In in Hin. destruct Hin as [Hin Hn].
    apply String.eqb_eq in Hn. auto.
  - intros (Hin & Hn & Hc). exists p. subst. split; [reflexivity|].
    apply filter_In. split; [exact Hin|]. apply String.eqb_refl.
Qed.

(** ** What the operations keep *)

Lemma contained_nil : contained [].
Proof. unfold contained. simpl. intuition. Qed.

Lemma contained_app (a b : trace) :
  contained a -> contained b -> contained (a ++ b).
Proof.
  unfold contained. intros (A1 & A2 & A3 & A4 & A5) (B1 & B2 & B3 & B4 & B5).
  rewrite timeouts_app, cancelled_app, watch_spawned_app, waited_app,
    watcher_closes_app, A1, A2, A3, A4, B1, B2, B3, B4.
  repeat split. intro H. apply in_app_iff in H. tauto.
Qed.

Lemma contained_log (lvl : level) (msg : string) (fs : list field) :
  contained [Log lvl msg fs].
Proof.
  unfold contained. simpl. repeat split.
  intros [H|[]]. discriminate H.
Qed.

Section Kept.

Variable env : Env.

Lemma startPluginApp_facts (s : Server) (name : string) (t : trace) :
  exists r d,
    startPluginApp env s name t = (r, t ++ d) /\
    started d = [launch_cmd s name] /\
    stopped d = [] /\ timeouts d = [] /\ contained d.
Proof.
  rewrite startPluginApp_run. eexists. eexists.
  split; [reflexivity|].
  destruct (proc_start env t (launch_cmd s name)); unfold contained; simpl;
    repeat split; intros [H|H]; try discriminate H;
    try contradiction; destruct H as [H|[]]; discriminate H.
Qed.

Lemma stopPluginApp_facts (s : Server) (name : string) (t : trace) :
  exists d,
    stopPluginApp env s name t = (None, t ++ d) /\
    stopped d = stop_requests s name (stop_ctx env t) /\
    timeouts d = [stop_ctx env t] /\
    started d = [] /\
    (forall msg, error_lines msg d = []) /\
    contained d.
Proof.
  destruct (stopPluginApp_run env s name t) as (d & E & F & S).
  destruct (stops_only F) as (S1 & S2 & S3 & S4 & S5 & S6 & S7).
  destruct (stops_leave_rest F) as (C1 & C2 & C3 & C4).
  eexists. split; [exact E|].
  unfold contained. cbn [stopped timeouts started cancelled waited
                         watcher_closes error_lines].
  rewrite stopped_app, timeouts_app, started_app, cancelled_app, waited_app,
    watcher_closes_app, S, S1, S2, S3, C1, C2.
  simpl. rewrite app_nil_r. repeat split.
  - intro msg. rewrite error_lines_app, C3. reflexivity.
  - unfold watch_spawned in *. simpl. rewrite existsb_app, S5. reflexivity.
  - intros [H|H]; [discriminate H|].
    apply in_app_iff in H. destruct H as [H|[H|[]]];
      [contradiction|discriminate H].
Qed.

(** The stop scan: one invocation of the stop procedure for each regular
    file of the listing, in order. *)
Lemma stopPlugins_loop_run (s : Server) (files : list DirEntry) :
  forall t, exists d,
    stopPlugins_loop env s files t = (tt, t ++ d) /\
    map fst (stopped d) =
      flat_map (getByName (pluginManager_of s)) (regular_files files) /\
    List.length (timeouts d) = List.length (regular_files files) /\
    started d = [] /\
    (forall msg, error_lines msg d = []) /\
    contained d.
Proof.
  unfold regular_files.
  induction files as [|f files IH]; intro t; simpl.
  - exists []. unfold ret. rewrite app_nil_r.
    repeat split. apply contained_nil.
  - destruct (IsDir f) eqn:D; simpl.
    + apply IH.
    + unfold bind.
      destruct (stopPluginApp_facts s (Name f) t)
        as (d1 & E1 & S1 & T1 & L1 & G1 & K1).
      rewrite E1. destruct (IH (t ++ d1)) as (d2 & E2 & S2 & T2 & L2 & G2 & K2).
      rewrite E2. exists (d1 ++ d2). split; [now rewrite app_assoc|].
      rewrite stopped_app, timeouts_app, started_app, map_app, S1, S2,
        length_app, T1, T2, L1, L2.
      split; [|split; [reflexivity|split; [reflexivity|split]]].
      * unfold stop_requests. rewrite map_map. simpl. now rewrite map_id.
      * intro msg. now rewrite error_lines_app, G1, G2.
      * now apply contained_app.
Qed.

End Kept.

(** ** The shutdown scan *)

(** The stop scan leaves one round for each regular file of the listing,
    in order. *)
Lemma stopPlugins_loop_rounds (env : Env) (s : Server)
    (files : list DirEntry) :
  forall t, exists d,
    stopPlugins_loop env s files t = (tt, t ++ d) /\
    stop_rounds env s (regular_files files) t d.
Proof.
  unfold regular_files.
  induction files as [|f files IH]; intro t; simpl.
  - exists []. unfold ret. now rewrite app_nil_r.
  - destruct (IsDir f) eqn:D; simpl.
    + apply IH.
    + unfold bind.
      destruct (stopPluginApp_run env s (Name f) t) as (stops & E & F & S).
      rewrite E.
      destruct (IH (t ++ WithTimeout (stop_ctx env t) :: stops
                      ++ [Cancel (stop_ctx env t)])) as (d' & E' & R').
      rewrite E'.
      exists (WithTimeout (stop_ctx env t) :: stops
                ++ Cancel (stop_ctx env t) :: d').
      split.
      * f_equal. rewrite <- !app_assoc. simpl. rewrite <- !app_assoc.
        reflexivity.
      * exists stops, d'. repeat split; assumption.
Qed.

(** The requests of a scan of rounds, each with the deadline of its round,
    and the deadlines created and released. *)
Lemma stop_rounds_read (env : Env) (s : Server) (names : list string) :
  forall t d,
    stop_rounds env s names t d ->
    map fst (stopped d) =
      flat_map (getByName (pluginManager_of s)) names /\
    List.length (timeouts d) = List.length names /\
    timeouts d = cancelled d /\
    incl (map snd (stopped d)) (timeouts d) /\
    started d = [] /\
    (forall msg, error_lines msg d = []).
Proof.
  induction names as [|name rest IH]; intros t d R; simpl in R.
  - subst d. simpl. repeat split. intros x [].
  - destruct R as (stops & d' & E & F & S & R').
    destruct (IH _ _ R') as (I1 & I2 & I3 & I4 & I5 & I6).
    destruct (stops_only F) as (S1 & S2 & _).
    destruct (stops_leave_rest F) as (C1 & _ & C3 & _).
    subst d.
    assert (St : stopped (WithTimeout (stop_ctx env t) :: stops
                            ++ Cancel (stop_ctx env t) :: d') =
                 stop_requests s name (stop_ctx env t) ++ stopped d').
    { cbn [stopped]. rewrite stopped_app. cbn [stopped]. now rewrite S. }
    assert (Ti : timeouts (WithTimeout (stop_ctx env t) :: stops
                             ++ Cancel (stop_ctx env t) :: d') =
                 stop_ctx env t :: timeouts d').
    { cbn [timeouts]. rewrite timeouts_app. cbn [timeouts].
      now rewrite S2. }
    assert (Ca : cancelled (WithTimeout (stop_ctx env t) :: stops
                              ++ Cancel (stop_ctx env t) :: d') =
                 stop_ctx env t :: cancelled d').
    { cbn [cancelled]. rewrite cancelled_app. cbn [cancelled].
      now rewrite C1. }
    rewrite St, Ti, Ca.
    split.
    { rewrite map_app, I1. unfold stop_requests. rewrite map_map.
      cbn [fst]. now rewrite map_id. }
    split; [simpl; now rewrite I2|].
    split; [now rewrite I3|].
    split.
    { intros c Hc. rewrite map_app in Hc. apply in_app_iff in Hc.
      destruct Hc as [Hc|Hc].
      - unfold stop_requests in Hc. rewrite map_map in Hc.
        apply in_map_iff in Hc. destruct Hc as [q [Hq _]]. left. exact Hq.
      - right. now apply I4. }
    split.
    { cbn [started]. rewrite started_app. cbn [started].
      now rewrite S1, I5. }
    intro msg. cbn [error_lines]. rewrite error_lines_app, C3.
    cbn [error_lines app]. apply I6.
Qed.

(** X8: when the plugin directory can be listed, the shutdown scan runs the
    stop procedure once for each regular file of the listing, in order and
    each under a deadline of its own: the trace is, file after file, the
    creation of a deadline three seconds ahead, the stop requests of the
    entries of that file under that very deadline, and its release.  The
    scan skips the subdirectories, starts no process, logs no error and
    returns nil. *)
Theorem stopPlugins_stops_every_regular_file
    (env : Env) (s : Server) (t : trace) (files : list DirEntry) :
  os_ReadDir env t (Dir (opts s)) = (files, None) ->
  exists d,
    stopPlugins env s t = (None, t ++ d) /\
    stop_rounds env s (regular_files files) t d /\
    map fst (stopped d) =
      flat_map (getByName (pluginManager_of s)) (regular_files files) /\
    List.length (timeouts d) = List.length (regular_files files) /\
    timeouts d = cancelled d /\
    incl (map snd (stopped d)) (timeouts d) /\
    started d = [] /\
    (forall msg, error_lines msg d = []).
Proof.
  intro R.
  destruct (stopPlugins_loop_rounds env s files t) as (d & E & Rd).
  exists d. split.
  - unfold stopPlugins, bind, ask. rewrite R, E. reflexivity.
  - split; [exact Rd|]. eapply stop_rounds_read. exact Rd.
Qed.

Lemma stopPlugins_stops_every_regular_file_witness :
  exists d,
    stopPlugins boot_env (server_with [echo_1; idle_1; echo_3]) [] =
      (None, [] ++ d) /\
    stop_rounds boot_env (server_with [echo_1; idle_1; echo_3])
                (regular_files boot_listing) [] d /\
    map fst (stopped d) =
      flat_map (getByName (pluginManager_of
                             (server_with [echo_1; idle_1; echo_3])))
               (regular_files boot_listing) /\
    List.length (timeouts d) = List.length (regular_files boot_listing) /\
    timeouts d = cancelled d /\
    incl (map snd (stopped d)) (timeouts d) /\
    started d = [] /\
    (forall msg, error_lines msg d = []).
Proof.
  apply (@stopPlugins_stops_every_regular_file
           boot_env (server_with [echo_1; idle_1; echo_3]) [] boot_listing).
  reflexivity.
Defined.

(** ** Start and stop of the server *)

Lemma startPlugins_loop_kept (env : Env) (s : Server)
    (files : list DirEntry) :
  forall t, exists d,
    startPlugins_loop env s files t = (tt, t ++ d) /\
    started d = map (launch_cmd s) (regular_files files) /\
    stopped d = [] /\ timeouts d = [] /\ contained d.
Proof.
  unfold regular_files.
  induction files as [|f files IH]; intro t; simpl.
  - exists []. unfold ret. rewrite app_nil_r.
    repeat split. apply contained_nil.
  - destruct (IsDir f) eqn:D; simpl.
    + apply IH.
    + unfold bind, log, emit.
      destruct (startPluginApp_facts env s (Name f)
                  (t ++ [Log Info "Plugin start"
                             [zap_String "plugin" (Name f)]]))
        as (r & d1 & E1 & S1 & P1 & T1 & K1).
      rewrite E1.
      destruct r as [e|].
      * match goal with
        | |- context [startPlugins_loop env s files ?u] =>
            destruct (IH u) as (d2 & E2 & S2 & P2 & T2 & K2)
        end.
        rewrite E2.
        exists ([Log Info "Plugin start" [zap_String "plugin" (Name f)]]
                  ++ d1 ++ [Log Error "start plugin error" [zap_Error e]]
                  ++ d2).
        split; [now rewrite <- !app_assoc|].
        rewrite !started_app, !stopped_app, !timeouts_app, S1, S2, P1, P2,
          T1, T2.
        split; [reflexivity|split; [reflexivity|split; [reflexivity|]]].
        repeat apply contained_app; auto using contained_log.
      * destruct (IH ((t ++ [Log Info "Plugin start"
                                 [zap_String "plugin" (Name f)]]) ++ d1))
          as (d2 & E2 & S2 & P2 & T2 & K2).
        rewrite E2.
        exists ([Log Info "Plugin start" [zap_String "plugin" (Name f)]]
                  ++ d1 ++ d2).
        split; [now rewrite <- !app_assoc|].
        rewrite !started_app, !stopped_app, !timeouts_app, S1, S2, P1, P2,
          T1, T2.
        split; [reflexivity|split; [reflexivity|split; [reflexivity|]]].
        repeat apply contained_app; auto using contained_log.
Qed.


(** X10: [Stop] stops the channel endpoint first and then runs the shutdown
    scan; it starts no process and releases every deadline it creates.
    When the plugin directory cannot be listed it asks no instance to stop
    and reports nothing; otherwise the instances of every regular file are
    asked, in the order of the listing. *)
Theorem Stop_endpoint_first_then_scan (env : Env) (s : Server) (t : trace) :
  exists d,
    Stop env s t = (tt, t ++ RpcStop :: d) /\
    started d = [] /\
    timeouts d = cancelled d /\
    watch_spawned d = false /\
    (snd (os_ReadDir env (t ++ [RpcStop]) (Dir (opts s))) <> None ->
     d = []) /\
    (snd (os_ReadDir env (t ++ [RpcStop]) (Dir (opts s))) = None ->
     map fst (stopped d) =
       flat_map (getByName (pluginManager_of s))
                (regular_files
                   (fst (os_ReadDir env (t ++ [RpcStop]) (Dir (opts s)))))).
Proof.
  unfold Stop, stopPlugins. unfold bind, emit, ask.
  destruct (os_ReadDir env (t ++ [RpcStop]) (Dir (opts s)))
    as [files [e|]] eqn:L.
  - exists []. unfold ret. split; [reflexivity|].
    simpl. repeat split; auto. intro H. discriminate H.
  - destruct (stopPlugins_loop_run env s files (t ++ [RpcStop]))
      as (d & E & S & T & St & G & K).
    rewrite E. unfold ret. exists d.
    split; [now rewrite <- app_assoc|].
    destruct K as (K1 & K2 & _). simpl.
    repeat split; auto. intro H. now contradiction H.
Qed.

(** ** One event of the watch loop *)

Section OneEvent.

Variable env : Env.

Lemma restartPlugin_facts (s : Server) (name : string) (t : trace) :
  exists r d1 d2,
    restartPlugin env s name t = (r, t ++ d1 ++ d2) /\
    stopped d1 = stop_requests s name (stop_ctx env t) /\
    timeouts d1 = [stop_ctx env t] /\ started d1 = [] /\
    started d2 = [launch_cmd s name] /\
    stopped d2 = [] /\ timeouts d2 = [] /\
    contained d1 /\ contained d2.
Proof.
  destruct (stopPluginApp_facts env s name t)
    as (d1 & E1 & S1 & T1 & L1 & _ & K1).
  destruct (startPluginApp_facts env s name (t ++ d1))
    as (r & d2 & E2 & L2 & S2 & T2 & K2).
  exists r, d1, d2. split.
  - unfold restartPlugin, bind. rewrite E1, E2, <- app_assoc.
    now destruct r.
  - repeat split; try assumption; try apply K1; apply K2.
Qed.

Lemma watch_dispatch_create (s : Server) (event : Event) (t : trace) :
  Has event fsnotify_Create = true ->
  exists d,
    watch_dispatch env s event t = (tt, t ++ d) /\
    started d = [launch_cmd s (path_Base (ev_Name event))] /\
    stopped d = [] /\ timeouts d = [] /\ contained d.
Proof.
  intro C. unfold watch_dispatch. rewrite C. unfold bind, log, emit.
  destruct (startPluginApp_facts env s (path_Base (ev_Name event))
              (t ++ [Log Info "Plugin file created"
                         [zap_String "plugin" (path_Base (ev_Name event))]]))
    as (r & d & E & L & S & T & K).
  rewrite E. destruct r as [e|].
  - exists ([Log Info "Plugin file created"
                 [zap_String "plugin" (path_Base (ev_Name event))]]
              ++ d ++ [Log Error "start plugin error" [zap_Error e]]).
    split; [now rewrite <- !app_assoc|].
    rewrite !started_app, !stopped_app, !timeouts_app, L, S, T.
    split; [reflexivity|split; [reflexivity|split; [reflexivity|]]].
    repeat apply contained_app; auto using contained_log.
  - exists ([Log Info "Plugin file created"
                 [zap_String "plugin" (path_Base (ev_Name event))]] ++ d).
    unfold ret. split; [now rewrite <- !app_assoc|].
    rewrite !started_app, !stopped_app, !timeouts_app, L, S, T.
    split; [reflexivity|split; [reflexivity|split; [reflexivity|]]].
    repeat apply contained_app; auto using contained_log.
Qed.

Lemma watch_dispatch_write (s : Server) (event : Event) (t : trace) :
  Has event fsnotify_Create = false ->
  Has event fsnotify_Write = true ->
  exists ctx d1 d2,
    watch_dispatch env s event t = (tt, t ++ d1 ++ d2) /\
    stopped d1 = stop_requests s (path_Base (ev_Name event)) ctx /\
    timeouts d1 = [ctx] /\ started d1 = [] /\
    started d2 = [launch_cmd s (path_Base (ev_Name event))] /\
    stopped d2 = [] /\ timeouts d2 = [] /\
    contained d1 /\ contained d2.
Proof.
  intros C W. unfold watch_dispatch. rewrite C, W. unfold bind, log, emit.
  set (name := path_Base (ev_Name event)).
  set (t1 := t ++ [Log Info "Plugin file changed"
                       [zap_String "plugin" name]]).
  destruct (restartPlugin_facts s name t1)
    as (r & d1 & d2 & E & S1 & T1 & L1 & L2 & S2 & T2 & K1 & K2).
  rewrite E. exists (stop_ctx env t1).
  exists ([Log Info "Plugin file changed" [zap_String "plugin" name]] ++ d1).
  destruct r as [e|].
  - exists (d2 ++ [Log Error "restart plugin error" [zap_Error e]]).
    split; [subst t1; now rewrite <- !app_assoc|].
    rewrite !started_app, !stopped_app, !timeouts_app, S1, T1, L1, L2, S2, T2.
    repeat (split; [reflexivity|]).
    split; repeat apply contained_app; auto using contained_log.
  - exists d2. unfold ret.
    split; [subst t1; now rewrite <- !app_assoc|].
    rewrite !started_app, !stopped_app, !timeouts_app, S1, T1, L1.
    repeat (split; [reflexivity || assumption|]).
    split; repeat apply contained_app; auto using contained_log.
Qed.

Lemma watch_dispatch_remove (s : Server) (event : Event) (t : trace) :
  Has event fsnotify_Create = false ->
  Has event fsnotify_Write = false ->
  Has event fsnotify_Remove || Has event fsnotify_Rename = true ->
  exists ctx d,
    watch_dispatch env s event t = (tt, t ++ d) /\
    stopped d = stop_requests s (path_Base (ev_Name event)) ctx /\
    timeouts d = [ctx] /\ started d = [] /\ contained d.
Proof.
  intros C W R. unfold watch_dispatch. rewrite C, W, R.
  unfold bind, log, emit.
  set (name := path_Base (ev_Name event)).
  set (t1 := t ++ [Log Info "Plugin file removed"
                       [zap_String "plugin" name]]).
  destruct (stopPluginApp_facts env s name t1)
    as (d & E & S & T & L & _ & K).
  rewrite E. unfold ret. exists (stop_ctx env t1).
  exists ([Log Info "Plugin file removed" [zap_String "plugin" name]] ++ d).
  split; [subst t1; now rewrite <- !app_assoc|].
  rewrite !started_app, !stopped_app, !timeouts_app, S, T, L.
  repeat (split; [reflexivity|]).
  repeat apply contained_app; auto using contained_log.
Qed.

Lemma watch_dispatch_other (s : Server) (event : Event) (t : trace) :
  Has event fsnotify_Create = false ->
  Has event fsnotify_Write = false ->
  Has event fsnotify_Remove || Has event fsnotify_Rename = false ->
  watch_dispatch env s event t = (tt, t).
Proof.
  intros C W R. unfold watch_dispatch. now rewrite C, W, R.
Qed.

(** Whatever the event, the dispatch starts at most one process, and none
    unless the event carries the create or the write bit; it creates at
    most one deadline. *)
Lemma watch_dispatch_bounds (s : Server) (event : Event) (t : trace) :
  exists d,
    watch_dispatch env s event t = (tt, t ++ d) /\
    List.length (started d) = (if may_launch event then 1 else 0) /\
    List.length (timeouts d) <= 1 /\
    contained d.
Proof.
  unfold may_launch.
  destruct (Has event fsnotify_Create) eqn:C.
  { destruct (watch_dispatch_create s event t C) as (d & E & L & S & T & K).
    exists d. rewrite L, T. simpl. auto. }
  destruct (Has event fsnotify_Write) eqn:W.
  { destruct (watch_dispatch_write s event t C W)
      as (ctx & d1 & d2 & E & S1 & T1 & L1 & L2 & S2 & T2 & K1 & K2).
    exists (d1 ++ d2). rewrite started_app, timeouts_app, L1, L2, T1, T2.
    simpl. split; [exact E|].
    split; [reflexivity|split; [lia|now apply contained_app]]. }
  destruct (Has event fsnotify_Remove || Has event fsnotify_Rename) eqn:R.
  { destruct (watch_dispatch_remove s event t C W R)
      as (ctx & d & E & S & T & L & K).
    exists d. rewrite L, T. simpl. auto. }
  exists []. rewrite app_nil_r, watch_dispatch_other by assumption.
  simpl. split; [reflexivity|].
  split; [reflexivity|split; [lia|apply contained_nil]].
Qed.

Lemma watch_event_bounds (s : Server) (event : Event)
    (stat : option FileInfo * option error) (t : trace) :
  exists d,
    watch_event env s event stat t = (tt, t ++ d) /\
    List.length (started d) <= (if may_launch event then 1 else 0) /\
    List.length (timeouts d) <= 1 /\
    contained d.
Proof.
  assert (Skip : exists d,
             ret tt t = (tt, t ++ d) /\
             List.length (started d) <= (if may_launch event then 1 else 0) /\
             List.length (timeouts d) <= 1 /\ contained d).
  { exists []. unfold ret. rewrite app_nil_r. simpl.
    split; [reflexivity|split; [lia|split; [lia|apply contained_nil]]]. }
  assert (Go : exists d,
             watch_dispatch env s event t = (tt, t ++ d) /\
             List.length (started d) <= (if may_launch event then 1 else 0) /\
             List.length (timeouts d) <= 1 /\ contained d).
  { destruct (watch_dispatch_bounds s event t) as (d & E & L & T & K).
    exists d. rewrite L. split; [exact E|split; [lia|split; assumption]]. }
  unfold watch_event. destruct stat as [fileInfo [e|]].
  - destruct (negb (os_IsNotExist (Some e))).
    + eexists. split; [reflexivity|]. simpl.
      split; [lia|split; [lia|apply contained_log]].
    + destruct fileInfo as [fi|]; [destruct (fi_IsDir fi)|]; assumption.
  - destruct fileInfo as [fi|]; [destruct (fi_IsDir fi)|]; assumption.
Qed.

End OneEvent.

(** X11: an event that carries the create bit and passes the two guards is
    answered by one launch of the file it names and by nothing else: no
    instance is asked to stop and no deadline is created, also when the
    event carries the write, remove or rename bit as well. *)
Theorem create_event_only_launches
    (env : Env) (s : Server) (event : Event)
    (stat : option FileInfo * option error) (t : trace) :
  Has event fsnotify_Create = true ->
  stat_lets_through stat = true ->
  exists d,
    watch_event env s event stat t = (tt, t ++ d) /\
    started d = [launch_cmd s (path_Base (ev_Name event))] /\
    stopped d = [] /\
    timeouts d = [].
Proof.
  intros C G. rewrite watch_event_passes_guards by exact G.
  destruct (watch_dispatch_create env s event t C) as (d & E & L & S & T & _).
  exists d. auto.
Qed.

Lemma create_event_only_launches_witness :
  exists d,
    watch_event boot_env (server_with [echo_1]) echo_created stat_file [] =
      (tt, [] ++ d) /\
    started d =
      [launch_cmd (server_with [echo_1])
                  (path_Base (ev_Name echo_created))] /\
    stopped d = [] /\
    timeouts d = [].
Proof.
  apply (@create_event_only_launches
           boot_env (server_with [echo_1]) echo_created stat_file []);
    reflexivity.
Defined.

Lemma list_ascii_of_string_app (a b : string) :
  list_ascii_of_string (a ++ b)%string =
  list_ascii_of_string a ++ list_ascii_of_string b.
Proof.
  induction a as [|c a IH]; simpl; [reflexivity|now rewrite IH].
Qed.

Lemma until_slash_prefix (l r : list ascii) :
  (forall c, In c l -> is_slash c = false) ->
  until_slash (l ++ slash :: r) = l.
Proof.
  induction l as [|x l IH]; intro H; simpl.
  - reflexivity.
  - rewrite (H x (or_introl eq_refl)).
    now rewrite IH by (intros c Hc; apply H; now right).
Qed.

(** The base of the path of a directory entry is the name of the entry. *)
Lemma path_Base_entry_path (dir name : string) :
  is_filename name = true ->
  path_Base (entry_path dir name) = name.
Proof.
  intro F. pose proof (is_filename_no_slash name F) as NS.
  unfold is_filename in F. rewrite !andb_true_iff, !negb_true_iff in F.
  destruct F as [[[_ NE] _] _].
  unfold path_Base, entry_path.
  assert (P : String.eqb (dir ++ "/" ++ name) "" = false).
  { apply String.eqb_neq. intro H.
    apply (f_equal list_ascii_of_string) in H.
    rewrite list_ascii_of_string_app in H. simpl in H.
    apply app_eq_nil in H. destruct H as [_ H]. discriminate H. }
  rewrite P.
  rewrite list_ascii_of_string_app. simpl list_ascii_of_string.
  rewrite rev_app_distr. simpl rev.
  destruct (list_ascii_of_string name) as [|c l] eqn:L.
  { exfalso. apply (f_equal string_of_list_ascii) in L.
    rewrite string_of_list_ascii_of_string in L. subst name.
    discriminate NE. }
  assert (NS' : forall x, In x (rev (c :: l)) -> is_slash x = false).
  { intros x Hx. apply NS. now apply in_rev. }
  destruct (rev (c :: l)) as [|y r] eqn:R.
  { apply (f_equal (@List.length ascii)) in R. rewrite length_rev in R.
    discriminate R. }
  rewrite <- !app_assoc. simpl app.
  cbn [strip_slashes]. rewrite (NS' y (or_introl eq_refl)).
  change (y :: r ++ "/"%char :: rev (list_ascii_of_string dir))
    with ((y :: r) ++ slash :: rev (list_ascii_of_string dir)).
  rewrite until_slash_prefix by exact NS'.
  rewrite <- R, rev_involutive, <- L, string_of_list_ascii_of_string.
  now rewrite NE.
Qed.

(** X12: an event for the path of an entry of a directory is handled under
    the name of the entry, the name the scans use: a create event for
    Dir/name starts the command that the startup scan starts for the
    entry name. *)
Theorem create_event_launches_like_scan
    (env : Env) (s : Server) (dir name : string) (op : Z)
    (stat : option FileInfo * option error) (t t' : trace) :
  is_filename name = true ->
  Has (mkEvent (entry_path dir name) op) fsnotify_Create = true ->
  stat_lets_through stat = true ->
  exists d d',
    watch_event env s (mkEvent (entry_path dir name) op) stat t =
      (tt, t ++ d) /\
    startPlugins_loop env s [mkDirEntry name false] t' = (tt, t' ++ d') /\
    started d = started d' /\
    started d = [launch_cmd s name].
Proof.
  intros F C G.
  rewrite watch_event_passes_guards by exact G.
  destruct (watch_dispatch_create env s _ t C) as (d & E & L & _).
  destruct (startPlugins_loop_kept env s [mkDirEntry name false] t')
    as (d' & E' & L' & _).
  exists d, d'. simpl in L.
  rewrite path_Base_entry_path in L by exact F.
  repeat split; auto. now rewrite L, L'.
Qed.

Lemma create_event_launches_like_scan_witness :
  exists d d',
    watch_event boot_env (server_with [])
                (mkEvent (entry_path "/plugins" "echo-plugin")
                         fsnotify_Create)
                stat_file [] = (tt, [] ++ d) /\
    startPlugins_loop boot_env (server_with [])
                      [mkDirEntry "echo-plugin" false] [] = (tt, [] ++ d') /\
    started d = started d' /\
    started d = [launch_cmd (server_with []) "echo-plugin"].
Proof.
  apply (@create_event_launches_like_scan
           boot_env (server_with []) "/plugins" "echo-plugin"
           fsnotify_Create stat_file [] []);
    reflexivity.
Defined.

(** X13: a write event that does not carry the create bit and passes the
    two guards is answered by the stop requests of the entries of the file
    it names, under one deadline that is released, followed by one launch
    of that file; no process is started before the last stop request. *)
Theorem write_event_stops_then_launches
    (env : Env) (s : Server) (event : Event)
    (stat : option FileInfo * option error) (t : trace) :
  Has event fsnotify_Create = false ->
  Has event fsnotify_Write = true ->
  stat_lets_through stat = true ->
  exists ctx d1 d2,
    watch_event env s event stat t = (tt, t ++ d1 ++ d2) /\
    stopped d1 = stop_requests s (path_Base (ev_Name event)) ctx /\
    timeouts d1 = [ctx] /\
    cancelled d1 = [ctx] /\
    started d1 = [] /\
    started d2 = [launch_cmd s (path_Base (ev_Name event))] /\
    stopped d2 = [] /\
    timeouts d2 = [].
Proof.
  intros C W G. rewrite watch_event_passes_guards by exact G.
  destruct (watch_dispatch_write env s event t C W)
    as (ctx & d1 & d2 & E & S1 & T1 & L1 & L2 & S2 & T2 & K1 & K2).
  exists ctx, d1, d2. destruct K1 as (K & _).
  repeat split; auto. now rewrite <- K.
Qed.

Lemma write_event_stops_then_launches_witness :
  exists ctx d1 d2,
    watch_event boot_env (server_with [echo_1; idle_1]) echo_written
                stat_file [] = (tt, [] ++ d1 ++ d2) /\
    stopped d1 =
      stop_requests (server_with [echo_1; idle_1])
                    (path_Base (ev_Name echo_written)) ctx /\
    timeouts d1 = [ctx] /\
    cancelled d1 = [ctx] /\
    started d1 = [] /\
    started d2 =
      [launch_cmd (server_with [echo_1; idle_1])
                  (path_Base (ev_Name echo_written))] /\
    stopped d2 = [] /\
    timeouts d2 = [].
Proof.
  apply (@write_event_stops_then_launches
           boot_env (server_with [echo_1; idle_1]) echo_written stat_file []);
    reflexivity.
Defined.

(** X14: an event is dropped, with no process started and no instance
    asked to stop, when its path is a directory, when [os.Stat] fails for
    another reason than not-exist, or when it carries none of the create,
    write, remove and rename bits; only the failure of [os.Stat] leaves
    something behind, one line of log. *)
Theorem dropped_event_changes_nothing
    (env : Env) (s : Server) (event : Event)
    (stat : option FileInfo * option error) (t : trace) :
  stat_lets_through stat = false \/
  (Has event fsnotify_Create = false /\ Has event fsnotify_Write = false /\
   Has event fsnotify_Remove = false /\ Has event fsnotify_Rename = false) ->
  exists d,
    watch_event env s event stat t = (tt, t ++ d) /\
    started d = [] /\ stopped d = [] /\ timeouts d = [] /\
    d = match snd stat with
        | Some e => if os_IsNotExist (Some e) then []
                    else [Log Error "stat file error" [zap_Error e]]
        | None => []
        end.
Proof.
  intro H.
  destruct (stat_lets_through stat) eqn:G.
  - destruct H as [H|(C & W & R & N)]; [discriminate H|].
    rewrite watch_event_passes_guards by exact G.
    rewrite watch_dispatch_other by (try assumption; now rewrite R, N).
    exists []. rewrite app_nil_r. repeat split.
    unfold stat_lets_through in G. apply andb_true_iff in G.
    destruct G as [G _]. destruct (snd stat) as [e|]; [|reflexivity].
    now rewrite G.
  - clear H. unfold watch_event, stat_lets_through in *.
    destruct stat as [fileInfo [e|]]; cbn [fst snd] in *.
    + destruct (os_IsNotExist (Some e)) eqn:N; cbn [negb andb] in *.
      * destruct fileInfo as [fi|]; [|discriminate G].
        apply negb_false_iff in G. rewrite G.
        exists []. unfold ret. now rewrite app_nil_r.
      * eexists. split; [reflexivity|]. repeat split.
    + destruct fileInfo as [fi|]; [|discriminate G].
      cbn [andb] in G. apply negb_false_iff in G. rewrite G.
      exists []. unfold ret. now rewrite app_nil_r.
Qed.

Lemma dropped_event_changes_nothing_witness :
  exists d,
    watch_event boot_env (server_with [echo_1]) echo_chmod stat_file [] =
      (tt, [] ++ d) /\
    started d = [] /\ stopped d = [] /\ timeouts d = [] /\
    d = match snd stat_file with
        | Some e => if os_IsNotExist (Some e) then []
                    else [Log Error "stat file error" [zap_Error e]]
        | None => []
        end.
Proof.
  apply (@dropped_event_changes_nothing
           boot_env (server_with [echo_1]) echo_chmod stat_file []).
  right. repeat split.
Defined.

(** X15: whatever the event and whatever [os.Stat] answers, handling one
    event starts at most one process, and none unless the event carries
    the create or the write bit; it creates at most one deadline and
    releases it; it never spawns the watch task, waits for a process or
    closes the watcher. *)
Theorem watch_event_does_little
    (env : Env) (s : Server) (event : Event)
    (stat : option FileInfo * option error) (t : trace) :
  exists d,
    watch_event env s event stat t = (tt, t ++ d) /\
    List.length (started d) <= (if may_launch event then 1 else 0) /\
    List.length (timeouts d) <= 1 /\
    timeouts d = cancelled d /\
    watch_spawned d = false /\
    waited d = [] /\
    watcher_closes d = 0.
Proof.
  destruct (watch_event_bounds env s event stat t)
    as (d & E & L & T & K1 & K2 & K3 & K4 & _).
  exists d. repeat split; assumption.
Qed.

(** ** The watch loop over many deliveries *)

Section Loop.

Variable env : Env.

Lemma watch_loop_bounds (s : Server) (ds : list delivery) :
  forall t, exists d,
    watch_loop env s ds t =
      (if existsb is_closure ds then Some None else None, t ++ d) /\
    List.length (started d) <=
      List.length (filter may_launch (delivered_events (before_closure ds))) /\
    List.length (timeouts d) <=
      List.length (delivered_events (before_closure ds)) /\
    contained d.
Proof.
  induction ds as [|x ds IH]; intro t.
  - exists []. simpl. unfold ret. rewrite app_nil_r.
    split; [reflexivity|split; [lia|split; [lia|apply contained_nil]]].
  - destruct x as [event stat pm | | e | ]; simpl.
    + unfold bind.
      destruct (watch_event_bounds env (with_registry s pm) event stat t)
        as (d1 & E1 & L1 & T1 & K1).
      rewrite E1. destruct (IH (t ++ d1)) as (d2 & E2 & L2 & T2 & K2).
      rewrite E2. exists (d1 ++ d2). split; [now rewrite app_assoc|].
      rewrite started_app, timeouts_app, !length_app.
      split; [|split; [simpl; lia|now apply contained_app]].
      destruct (may_launch event); simpl; lia.
    + exists []. unfold ret. rewrite app_nil_r. simpl.
      split; [reflexivity|split; [lia|split; [lia|apply contained_nil]]].
    + unfold bind, log, emit.
      destruct (IH (t ++ [Log Error "watcher error" [zap_Error e]]))
        as (d2 & E2 & L2 & T2 & K2).
      rewrite E2. exists ([Log Error "watcher error" [zap_Error e]] ++ d2).
      split; [now rewrite <- app_assoc|].
      rewrite started_app, timeouts_app. simpl.
      split; [lia|split; [lia|]].
      apply (@contained_app [Log Error "watcher error" [zap_Error e]] d2);
        auto using contained_log.
    + exists []. unfold ret. rewrite app_nil_r. simpl.
      split; [reflexivity|split; [lia|split; [lia|apply contained_nil]]].
Qed.

(** A prefix of deliveries without closure is consumed, and the loop goes on
    with what follows from the history the prefix left. *)
Lemma watch_loop_app (s : Server) (ds1 ds2 : list delivery) :
  existsb is_closure ds1 = false ->
  forall t,
    fst (watch_loop env s ds1 t) = None /\
    watch_loop env s (ds1 ++ ds2) t =
    watch_loop env s ds2 (snd (watch_loop env s ds1 t)).
Proof.
  induction ds1 as [|x ds1 IH]; intros N t.
  - split; reflexivity.
  - simpl in N. apply orb_false_iff in N. destruct N as [Nx N].
    destruct x as [event stat pm | | e | ]; simpl in Nx; try discriminate Nx.
    + simpl. unfold bind.
      destruct (watch_event env (with_registry s pm) event stat t) as [u t1].
      apply IH. exact N.
    + simpl. unfold bind, log, emit. apply IH. exact N.
Qed.

End Loop.

(** X16: over any sequence of deliveries, the watch loop starts no more
    processes than it received events with the create or the write bit
    before the closure, so a loop that receives only remove, rename and
    chmod events and watcher errors starts none; it creates no more
    deadlines than it received events and releases each one; it never
    waits for a process. *)
Theorem watch_loop_launches_only_on_create_or_write
    (env : Env) (s : Server) (ds : list delivery) (t : trace) :
  exists d,
    snd (watch_loop env s ds t) = t ++ d /\
    List.length (started d) <=
      List.length (filter may_launch (delivered_events (before_closure ds))) /\
    List.length (timeouts d) <=
      List.length (delivered_events (before_closure ds)) /\
    timeouts d = cancelled d /\
    waited d = [].
Proof.
  destruct (watch_loop_bounds env s ds t) as (d & E & L & T & K1 & _ & K3 & _).
  exists d. rewrite E. repeat split; assumption.
Qed.

(** X18: what is delivered after the first closure is never handled: the
    loop over a sequence is the loop over its part up to and including the
    first closure. *)
Theorem watch_loop_ignores_what_follows_closure
    (env : Env) (s : Server) (ds1 ds2 : list delivery) (c : delivery)
    (t : trace) :
  existsb is_closure ds1 = false ->
  is_closure c = true ->
  watch_loop env s (ds1 ++ c :: ds2) t = watch_loop env s (ds1 ++ [c]) t /\
  fst (watch_loop env s (ds1 ++ c :: ds2) t) = Some None.
Proof.
  intros N C.
  destruct (watch_loop_app env s ds1 (c :: ds2) N t) as [_ E1].
  destruct (watch_loop_app env s ds1 [c] N t) as [_ E2].
  rewrite E1, E2.
  destruct c; simpl in C; try discriminate C; split; reflexivity.
Qed.

Lemma watch_loop_ignores_what_follows_closure_witness :
  watch_loop boot_env (server_with [])
    ([RecvError ErrPermission] ++ EventsClosed ::
     [RecvEvent echo_created stat_file (mkPluginManager [])]) [] =
  watch_loop boot_env (server_with [])
    ([RecvError ErrPermission] ++ [EventsClosed]) [] /\
  fst (watch_loop boot_env (server_with [])
         ([RecvError ErrPermission] ++ EventsClosed ::
          [RecvEvent echo_created stat_file (mkPluginManager [])]) []) =
  Some None.
Proof.
  apply (@watch_loop_ignores_what_follows_closure
           boot_env (server_with []) [RecvError ErrPermission]
           [RecvEvent echo_created stat_file (mkPluginManager [])]
           EventsClosed []);
    reflexivity.
Defined.

(** X19: [watchPlugins] returns an error in one case only, the watcher
    cannot be created, and then it has done nothing.  Otherwise it adds
    the plugin directory to the watcher first; it closes the watcher
    exactly when the loop returns, once and as its last action, and then
    returns nil. *)
Theorem watchPlugins_closes_watcher_when_it_returns
    (env : Env) (s : Server) (ds : list delivery) (t : trace) :
  exists r d,
    watchPlugins env s ds t = (r, t ++ d) /\
    match fsnotify_NewWatcher env t with
    | Some e => r = Some (Some e) /\ d = []
    | None =>
        r = (if existsb is_closure ds then Some None else None) /\
        watcher_closes d = (if existsb is_closure ds then 1 else 0) /\
        exists d',
          d = WatcherAdd (Dir (opts s)) :: d'
              ++ (if existsb is_closure ds then [WatcherClose] else [])
    end.
Proof.
  unfold watchPlugins, bind, ask.
  destruct (fsnotify_NewWatcher env t) as [e|].
  - exists (Some (Some e)), []. unfold ret. rewrite app_nil_r. auto.
  - unfold emit.
    destruct (watch_loop_bounds env s ds (t ++ [WatcherAdd (Dir (opts s))]))
      as (d' & E & _ & _ & _ & _ & _ & K & _).
    rewrite E. destruct (existsb is_closure ds); unfold ret.
    + exists (Some None),
        (WatcherAdd (Dir (opts s)) :: d' ++ [WatcherClose]).
      split; [now rewrite <- !app_assoc|].
      split; [reflexivity|]. split; [|now exists d'].
      cbn [watcher_closes]. rewrite watcher_closes_app, K. reflexivity.
    + exists None, (WatcherAdd (Dir (opts s)) :: d').
      split; [now rewrite <- !app_assoc|].
      split; [reflexivity|]. split; [exact K|].
      exists d'. now rewrite app_nil_r.
Qed.

(** ** Construction, in every environment *)

Lemma chmods_app (a b : trace) : chmods (a ++ b) = chmods a ++ chmods b.
Proof. reader_app a. Qed.

Section Built.

Variable env : Env.
Variable path_Join : list string -> string.
Variable path_Dir : string -> string.

Lemma getUnixSocket_run (t : trace) :
  exists r d,
    getUnixSocket env path_Join path_Dir t = (r, t ++ d) /\
    chmods d = [] /\
    let path := socket_under path_Join (fst (os_UserHomeDir env t)) in
    match r with
    | Panics e =>
        os_IsNotExist (Some e) = false /\
        d = [Remove path (Some e); StdLogRemoving path e]
    | Returns (addr, Some e) =>
        addr = "" /\
        (d = [] \/
         exists r0, d = [Remove path r0;
                         MkdirAll (path_Dir path) 511 (Some e)])
    | Returns (addr, None) =>
        addr = ("unix://" ++ path)%string /\
        exists r0,
          (r0 = None \/ os_IsNotExist r0 = true) /\
          d = [Remove path r0; MkdirAll (path_Dir path) 511 None]
    end.
Proof.
  unfold getUnixSocket, socket_under.
  unfold bind at 1. unfold ask at 1.
  destruct (os_UserHomeDir env t) as [home [e|]]; cbn [fst].
  - exists (Returns ("", Some e)), []. unfold ret. rewrite app_nil_r.
    repeat split. now left.
  - cbv zeta.
    set (path := path_Join [home; ".wukong"; "run"; "wukongim.sock"]).
    unfold sys_Remove, sys_MkdirAll, bind, ask, emit, ret.
    destruct (os_Remove env t path) as [e|] eqn:R.
    + destruct (os_IsNotExist (Some e)) eqn:N; cbn [negb].
      * destruct (os_MkdirAll env (t ++ [Remove path (Some e)])
                              (path_Dir path) 511) as [e'|].
        { exists (Returns ("", Some e')),
            [Remove path (Some e); MkdirAll (path_Dir path) 511 (Some e')].
          split; [now rewrite <- app_assoc|]. repeat split.
          right. now exists (Some e). }
        { exists (Returns (("unix://" ++ path)%string, None)),
            [Remove path (Some e); MkdirAll (path_Dir path) 511 None].
          split; [now rewrite <- app_assoc|]. repeat split.
          exists (Some e). split; [now right|reflexivity]. }
      * exists (Panics e), [Remove path (Some e); StdLogRemoving path e].
        split; [now rewrite <- app_assoc|]. repeat split. exact N.
    + destruct (os_MkdirAll env (t ++ [Remove path None])
                            (path_Dir path) 511) as [e'|].
      { exists (Returns ("", Some e')),
          [Remove path None; MkdirAll (path_Dir path) 511 (Some e')].
        split; [now rewrite <- app_assoc|]. repeat split.
        right. now exists None. }
      { exists (Returns (("unix://" ++ path)%string, None)),
          [Remove path None; MkdirAll (path_Dir path) 511 None].
        split; [now rewrite <- app_assoc|]. repeat split.
        exists None. split; [now left|reflexivity]. }
Qed.

Lemma ensure_dir_run (dir : string) (t : trace) :
  exists r d,
    ensure_dir env dir t = (r, t ++ d) /\ chmods d = [].
Proof.
  unfold ensure_dir, bind, ask.
  destruct (os_IsNotExist (snd (os_Stat env t dir))).
  - unfold sys_MkdirAll, bind, ask, emit, ret.
    eexists. eexists. split; [reflexivity|reflexivity].
  - exists None, []. unfold ret. now rewrite app_nil_r.
Qed.

(** The outcomes of the construction. *)
Lemma NewServer_run (o : Options) (t : trace) :
  exists r d,
    NewServer env path_Join path_Dir o t = (r, t ++ d) /\
    match r with
    | Panics e => chmods d = []
    | Returns None => exists e, chmods d = [(Dir o, 365%Z, Some e)] /\
                                last d RpcStop = Chmod (Dir o) 365 (Some e)
    | Returns (Some srv) =>
        chmods d = [(Dir o, 365%Z, None)] /\
        last d RpcStop = Chmod (Dir o) 365 None /\
        opts srv = o /\
        pluginManager_of srv = mkPluginManager [] /\
        sandboxDir srv = path_Join [Dir o; "plugindata"] /\
        rpcServer srv =
          ("unix://" ++
           socket_under path_Join (fst (os_UserHomeDir env t)))%string
    end.
Proof.
  unfold NewServer, bind.
  destruct (getUnixSocket_run t) as (r1 & d1 & E1 & C1 & M1).
  rewrite E1. cbv zeta in M1.
  destruct r1 as [[addr [e|]]|e].
  - exists (Panics e), d1. split; [reflexivity|exact C1].
  - destruct M1 as [A _].
    destruct (ensure_dir_run (Dir o) (t ++ d1)) as (r2 & d2 & E2 & C2).
    rewrite E2. destruct r2 as [e|].
    { exists (Panics e), (d1 ++ d2). unfold ret.
      split; [now rewrite app_assoc|]. now rewrite chmods_app, C1, C2. }
    destruct (ensure_dir_run (path_Join [Dir o; "plugindata"])
                             ((t ++ d1) ++ d2)) as (r3 & d3 & E3 & C3).
    rewrite E3. destruct r3 as [e|].
    { exists (Panics e), (d1 ++ d2 ++ d3). unfold ret.
      split; [now rewrite !app_assoc|].
      now rewrite !chmods_app, C1, C2, C3. }
    unfold sys_Chmod, bind, ask, emit, ret.
    destruct (os_Chmod env (((t ++ d1) ++ d2) ++ d3) (Dir o) 365) as [e|].
    + exists (Returns None),
        (d1 ++ d2 ++ d3 ++ [Chmod (Dir o) 365 (Some e)]).
      split; [now rewrite !app_assoc|]. exists e.
      rewrite !chmods_app, C1, C2, C3. split; [reflexivity|].
      rewrite !app_assoc. apply last_last.
    + eexists. exists (d1 ++ d2 ++ d3 ++ [Chmod (Dir o) 365 None]).
      split; [now rewrite !app_assoc|]. cbn [opts pluginManager_of
                                               sandboxDir rpcServer].
      rewrite !chmods_app, C1, C2, C3.
      split; [reflexivity|].
      split; [rewrite !app_assoc; apply last_last|].
      subst addr. repeat split.
  - exists (Panics e), d1. split; [reflexivity|exact C1].
Qed.

End Built.


Lemma last_app_right (A : Type) (a b : list A) (x : A) :
  b <> [] -> last (a ++ b) x = last b x.
Proof.
  intro N. induction a as [|y a IH]; simpl; [reflexivity|].
  rewrite IH. destruct (a ++ b) eqn:E; [|reflexivity].
  apply app_eq_nil in E. tauto.
Qed.

(** X21: a server that [NewServer] returns is built from the options it
    was given, with an empty registry, the sandbox directory plugindata
    under the plugin directory and the unix address of the socket; the
    last thing done was to make the plugin directory read-only, with
    success; its capability query answers nothing yet. *)
Theorem NewServer_returns_fresh_server
    (env : Env) (path_Join : list string -> string)
    (path_Dir : string -> string) (o : Options) (t t' : trace)
    (srv : Server) :
  NewServer env path_Join path_Dir o t = (Returns (Some srv), t') ->
  opts srv = o /\
  all (pluginManager_of srv) = [] /\
  (forall methods, Plugins srv methods = []) /\
  sandboxDir srv = path_Join [Dir o; "plugindata"] /\
  rpcServer srv =
    ("unix://" ++
     socket_under path_Join (fst (os_UserHomeDir env t)))%string /\
  last t' RpcStop = Chmod (Dir o) 365 None.
Proof.
  intro H.
  destruct (NewServer_run env path_Join path_Dir o t) as (r & d & E & M).
  rewrite E in H. inversion H; subst r t'. clear H.
  destruct M as (C & L & O & P & S & R).
  assert (D : d <> []) by (intro X; subst d; discriminate C).
  repeat split; auto.
  - now rewrite P.
  - intro methods. rewrite Plugins_refines. unfold listByCapability.
    now rewrite P.
  - rewrite last_app_right by exact D. exact L.
Qed.

Lemma NewServer_returns_fresh_server_witness :
  opts (mkServer ("unix://" ++ socket_path)%string (mkPluginManager [])
                 plugin_opts "/plugins/plugindata") = plugin_opts /\
  all (pluginManager_of
         (mkServer ("unix://" ++ socket_path)%string (mkPluginManager [])
                   plugin_opts "/plugins/plugindata")) = [] /\
  (forall methods,
      Plugins (mkServer ("unix://" ++ socket_path)%string
                        (mkPluginManager []) plugin_opts
                        "/plugins/plugindata") methods = []) /\
  sandboxDir (mkServer ("unix://" ++ socket_path)%string (mkPluginManager [])
                       plugin_opts "/plugins/plugindata") =
    join_slash [Dir plugin_opts; "plugindata"] /\
  rpcServer (mkServer ("unix://" ++ socket_path)%string (mkPluginManager [])
                      plugin_opts "/plugins/plugindata") =
    ("unix://" ++
     socket_under join_slash
       (fst (os_UserHomeDir
               (setup_env None (Some ErrNotExist) (fun _ => true) "" None)
               [])))%string /\
  last [Remove socket_path (Some ErrNotExist);
        MkdirAll "/home/wk/.wukong/run" 511 None;
        MkdirAll "/plugins" 511 None;
        MkdirAll "/plugins/plugindata" 511 None;
        Chmod "/plugins" 365 None] RpcStop =
    Chmod (Dir plugin_opts) 365 None.
Proof.
  apply (@NewServer_returns_fresh_server
           (setup_env None (Some ErrNotExist) (fun _ => true) "" None)
           join_slash dir_of plugin_opts []).
  reflexivity.
Defined.

(** X22: the mode of the plugin directory is changed at most once, to
    0555 and as the last step of the construction.  [NewServer] returns a
    server exactly when that change succeeded and the nil server exactly
    when it failed; whenever it panics, no change of mode was attempted
    yet. *)
Theorem NewServer_changes_mode_last
    (env : Env) (path_Join : list string -> string)
    (path_Dir : string -> string) (o : Options) (t : trace) :
  exists r d,
    NewServer env path_Join path_Dir o t = (r, t ++ d) /\
    match r with
    | Panics _ => chmods d = []
    | Returns None =>
        exists e, chmods d = [(Dir o, 365%Z, Some e)] /\
                  last d RpcStop = Chmod (Dir o) 365 (Some e)
    | Returns (Some _) =>
        chmods d = [(Dir o, 365%Z, None)] /\
        last d RpcStop = Chmod (Dir o) 365 None
    end.
Proof.
  destruct (NewServer_run env path_Join path_Dir o t) as (r & d & E & M).
  exists r, d. split; [exact E|].
  destruct r as [[srv|]|e]; try exact M.
  destruct M as (C & L & _). now split.
Qed.

(** ** A file created and removed before its plugin registers *)

(** X23: the stop procedure reaches registered instances only.  When a
    file is created and then removed while the registry holds no entry
    for it (the process has not registered yet), the loop starts the
    process for the create event and, for the remove event, creates and
    releases a deadline without asking anything to stop: the process
    started is left running. *)
Theorem create_then_remove_leaves_process
    (env : Env) (s : Server) (created removed : Event)
    (stat1 stat2 : option FileInfo * option error)
    (pm1 pm2 : pluginManager) (t : trace) :
  Has created fsnotify_Create = true ->
  Has removed fsnotify_Create = false ->
  Has removed fsnotify_Write = false ->
  Has removed fsnotify_Remove = true \/ Has removed fsnotify_Rename = true ->
  path_Base (ev_Name removed) = path_Base (ev_Name created) ->
  stat_lets_through stat1 = true ->
  stat_lets_through stat2 = true ->
  getByName pm2 (path_Base (ev_Name created)) = [] ->
  exists d,
    watch_loop env s [RecvEvent created stat1 pm1;
                      RecvEvent removed stat2 pm2] t = (None, t ++ d) /\
    started d = [launch_cmd s (path_Base (ev_Name created))] /\
    stopped d = [] /\
    List.length (timeouts d) = 1 /\
    timeouts d = cancelled d.
Proof.
  intros C NC NW R B G1 G2 Empty.
  cbn [watch_loop]. unfold bind.
  rewrite (watch_event_passes_guards env (with_registry s pm1) created
                                     stat1 t G1).
  destruct (watch_dispatch_create env (with_registry s pm1) created t C)
    as (d1 & E1 & L1 & S1 & T1 & K1).
  rewrite E1.
  rewrite (watch_event_passes_guards env (with_registry s pm2) removed
                                     stat2 (t ++ d1) G2).
  assert (R' : Has removed fsnotify_Remove || Has removed fsnotify_Rename
               = true) by (apply orb_true_iff; exact R).
  destruct (watch_dispatch_remove env (with_registry s pm2) removed
                                  (t ++ d1) NC NW R')
    as (ctx & d2 & E2 & S2 & T2 & L2 & K2).
  rewrite E2. unfold ret. exists (d1 ++ d2).
  split; [now rewrite app_assoc|].
  rewrite started_app, stopped_app, timeouts_app, cancelled_app,
    L1, L2, S1, S2, T1, T2.
  destruct K1 as (K1 & _). destruct K2 as (K2 & _).
  rewrite <- K1, <- K2, T1, T2.
  unfold stop_requests. cbn [pluginManager_of with_registry].
  rewrite B, Empty. repeat split.
Qed.

Lemma create_then_remove_leaves_process_witness :
  exists d,
    watch_loop boot_env (server_with [])
      [RecvEvent echo_created stat_file (mkPluginManager []);
       RecvEvent echo_removed stat_gone (mkPluginManager [idle_1])] [] =
      (None, [] ++ d) /\
    started d =
      [launch_cmd (server_with []) (path_Base (ev_Name echo_created))] /\
    stopped d = [] /\
    List.length (timeouts d) = 1 /\
    timeouts d = cancelled d.
Proof.
  apply (@create_then_remove_leaves_process
           boot_env (server_with []) echo_created echo_removed
           stat_file stat_gone (mkPluginManager [])
           (mkPluginManager [idle_1]) []);
    try reflexivity.
  left. reflexivity.
Defined.

(** ** Write events and the restart procedure *)

(** C1 as stated fails: a write event for the file of a registered
    instance, for whose path [os.Stat] answers an error other than
    not-exist, is logged and dropped; the restart procedure is not run, so
    the instance is not asked to stop and the file is not launched. *)
Lemma write_event_dropped_on_stat_error :
  Has echo_written fsnotify_Write = true /\
  getByName (pluginManager_of (server_with [echo_1]))
            (path_Base (ev_Name echo_written)) = [echo_1] /\
  watch_event calm (server_with [echo_1]) echo_written stat_denied [] =
    (tt, [Log Error "stat file error" [zap_Error ErrPermission]]) /\
  stopped (snd (watch_event calm (server_with [echo_1]) echo_written
                            stat_denied [])) = [] /\
  started (snd (watch_event calm (server_with [echo_1]) echo_written
                            stat_denied [])) = [] /\
  ~ (forall (env : Env) (s : Server) (event : Event)
            (stat : option FileInfo * option error) (t : trace),
        Has event fsnotify_Write = true ->
        exists ctx d1 d2,
          watch_event env s event stat t = (tt, t ++ d1 ++ d2) /\
          stopped d1 = stop_requests s (path_Base (ev_Name event)) ctx /\
          started d1 = [] /\
          started d2 = [launch_cmd s (path_Base (ev_Name event))]).
Proof.
  split; [reflexivity|]. split; [reflexivity|].
  split; [reflexivity|]. split; [reflexivity|]. split; [reflexivity|].
  intro H.
  destruct (H calm (server_with [echo_1]) echo_written stat_denied []
              eq_refl) as (ctx & d1 & d2 & E & _ & L1 & L2).
  assert (X : started (snd (watch_event calm (server_with [echo_1])
                                        echo_written stat_denied [])) =
              started ([] ++ d1 ++ d2)) by now rewrite E.
  rewrite app_nil_l, started_app, L1, L2 in X. discriminate X.
Qed.

(** C1, amended: a write event that does not carry the create bit as well,
    and for whose path [os.Stat] answers without error or with not-exist
    and finds no directory, is answered by the restart procedure for the
    file it names: first the stop procedure for the registry entries of
    that file, then the launch of the file, unconditionally: whatever the
    registry holds (no entry at all included) and whatever the stop
    requests answered (the environment is arbitrary).  What follows the
    launch is at most the log of its error. *)
Theorem write_event_restart_stops_then_always_launches
    (env : Env) (s : Server) (event : Event)
    (stat : option FileInfo * option error) (t : trace) :
  Has event fsnotify_Write = true ->
  Has event fsnotify_Create = false ->
  stat_lets_through stat = true ->
  exists t1 d1 d2 d3 r,
    t1 = t ++ [Log Info "Plugin file changed"
                   [zap_String "plugin" (path_Base (ev_Name event))]] /\
    watch_event env s event stat t = (tt, t1 ++ d1 ++ d2 ++ d3) /\
    restartPlugin env s (path_Base (ev_Name event)) t1 =
      (r, t1 ++ d1 ++ d2) /\
    stopPluginApp env s (path_Base (ev_Name event)) t1 = (None, t1 ++ d1) /\
    startPluginApp env s (path_Base (ev_Name event)) (t1 ++ d1) =
      (r, (t1 ++ d1) ++ d2) /\
    stopped d1 =
      stop_requests s (path_Base (ev_Name event)) (stop_ctx env t1) /\
    started d1 = [] /\
    stopped d2 = [] /\
    started d2 = [launch_cmd s (path_Base (ev_Name event))] /\
    stopped d3 = [] /\
    started d3 = [].
Proof.
  intros W C G.
  set (name := path_Base (ev_Name event)).
  set (t1 := t ++ [Log Info "Plugin file changed"
                       [zap_String "plugin" name]]).
  destruct (stopPluginApp_run env s name t1) as (stops & E1 & F & S).
  destruct (stops_only F) as (S1 & _).
  set (d1 := WithTimeout (stop_ctx env t1) :: stops
               ++ [Cancel (stop_ctx env t1)]) in *.
  pose proof (startPluginApp_run env s name (t1 ++ d1)) as E2.
  set (r := proc_start env (t1 ++ d1) (launch_cmd s name)) in *.
  set (d2 := CmdStart (launch_cmd s name) r
               :: match r with
                  | Some e => [Log Error "starting plugin process failed"
                                   [zap_Error e; zap_String "plugin" name]]
                  | None => []
                  end) in *.
  assert (R : restartPlugin env s name t1 = (r, t1 ++ d1 ++ d2)).
  { unfold restartPlugin, bind. rewrite E1, E2, <- app_assoc.
    now destruct r. }
  exists t1, d1, d2,
    (match r with
     | Some e => [Log Error "restart plugin error" [zap_Error e]]
     | None => []
     end), r.
  split; [reflexivity|]. split.
  { rewrite watch_event_passes_guards by exact G.
    unfold watch_dispatch. rewrite C, W. unfold bind, log, emit.
    fold name. fold t1. rewrite R.
    destruct r as [e|]; unfold ret.
    - now rewrite <- !app_assoc.
    - now rewrite !app_nil_r. }
  split; [exact R|]. split; [exact E1|]. split; [exact E2|].
  assert (Sd1 : stopped d1 = stop_requests s name (stop_ctx env t1)).
  { subst d1. cbn [stopped]. rewrite stopped_app, S. simpl.
    now rewrite app_nil_r. }
  assert (Ld1 : started d1 = []).
  { subst d1. cbn [started]. rewrite started_app, S1. reflexivity. }
  split; [exact Sd1|]. split; [exact Ld1|].
  subst d2. destruct r; repeat split.
Qed.

Lemma write_event_restart_stops_then_always_launches_witness :
  exists t1 d1 d2 d3 r,
    t1 = [] ++ [Log Info "Plugin file changed"
                    [zap_String "plugin" (path_Base (ev_Name echo_written))]]
    /\
    watch_event boot_env (server_with [echo_1; idle_1]) echo_written
                stat_file [] = (tt, t1 ++ d1 ++ d2 ++ d3) /\
    restartPlugin boot_env (server_with [echo_1; idle_1])
                  (path_Base (ev_Name echo_written)) t1 =
      (r, t1 ++ d1 ++ d2) /\
    stopPluginApp boot_env (server_with [echo_1; idle_1])
                  (path_Base (ev_Name echo_written)) t1 = (None, t1 ++ d1) /\
    startPluginApp boot_env (server_with [echo_1; idle_1])
                   (path_Base (ev_Name echo_written)) (t1 ++ d1) =
      (r, (t1 ++ d1) ++ d2) /\
    stopped d1 =
      stop_requests (server_with [echo_1; idle_1])
                    (path_Base (ev_Name echo_written))
                    (stop_ctx boot_env t1) /\
    started d1 = [] /\
    stopped d2 = [] /\
    started d2 =
      [launch_cmd (server_with [echo_1; idle_1])
                  (path_Base (ev_Name echo_written))] /\
    stopped d3 = [] /\
    started d3 = [].
Proof.
  apply (@write_event_restart_stops_then_always_launches
           boot_env (server_with [echo_1; idle_1]) echo_written stat_file []);
    reflexivity.
Defined.

(** On the sample: no entry of the file in the registry, and the launch
    still happens; an entry whose stop request times out, and the launch
    still happens. *)
Example write_event_sample :
  started (snd (watch_event boot_env (server_with [idle_1]) echo_written
                            stat_file [])) =
    [launch_cmd (server_with [idle_1]) "echo-plugin"] /\
  stopped (snd (watch_event boot_env (server_with [idle_1]) echo_written
                            stat_file [])) = [] /\
  started (snd (watch_event boot_env (server_with [echo_1]) echo_written
                            stat_file [])) =
    [launch_cmd (server_with [echo_1]) "echo-plugin"] /\
  map fst (stopped (snd (watch_event boot_env (server_with [echo_1])
                                     echo_written stat_file []))) =
    [echo_1].
Proof. repeat split. Qed.

(** ** The answers of the loop, delivery by delivery *)

Section Answers.

Variable env : Env.




End Answers.


(** On a sample: a write, a watcher error, a create and a remove for the
    same file, then the closure and one more create that is never seen. *)
Example watch_loop_sample :
  let ds := [RecvEvent echo_written stat_file (mkPluginManager [echo_1]);
             RecvError ErrPermission;
             RecvEvent echo_created stat_file (mkPluginManager []);
             RecvEvent echo_removed stat_gone (mkPluginManager [echo_2]);
             EventsClosed;
             RecvEvent echo_created stat_file (mkPluginManager [])] in
  let d := snd (watch_loop boot_env (server_with []) ds []) in
  started d = [launch_cmd (server_with []) "echo-plugin";
               launch_cmd (server_with []) "echo-plugin"] /\
  map fst (stopped d) = [echo_1; echo_2] /\
  logged_errors "watcher error" d = [ErrPermission] /\
  fst (watch_loop boot_env (server_with []) ds []) = Some None.
Proof. repeat split. Qed.
